(** * Gemini Agent Workflow: the workflow core, embedded and verified

    A shallow embedding of the TypeScript sources

      - [src/types.ts]                   (the data model),
      - [src/services/geminiService.ts]  (plan generator and step executor),
      - [src/utils/fileUtils.ts]         (file classification),
      - the [WorkflowList] component     (code extraction, report heuristic),
      - [src/App.tsx]                    (the execution loop),

    followed by the properties of the specification that concern them.
    Part I holds the embedding, the inputs of the examples and the
    vocabulary of the specification; Part II holds the lemmas and theorems.

    Conventions of the embedding.

    - A JavaScript string is the list of its UTF-16 code units; a code unit
      is a number of type [N].  Literals are written [js "..."].
    - A value that may be [undefined]/[null] is an [option].
    - An [async] function is split at its [await]: the part before it is a
      state transformer, the awaited promise settles with a value of an
      explicit sum type, and the continuation is a second state transformer.
    - React state is a record; the state updates queued by one synchronous
      stretch of code are applied together (automatic batching) and the
      effect of [App] runs against the committed state whenever one of its
      dependencies has been replaced.
    - Built-ins of the host whose tables are not part of the repository
      ([String.prototype.toLowerCase], [JSON.parse]) are the fields of the
      class [Host]. *)

From Stdlib Require Import List NArith ZArith Bool Arith Lia.
From Stdlib Require String Ascii.
Import ListNotations String.StringSyntax.
Delimit Scope string_scope with string.

(* ================================================================== *)
(** * Part I: definitions *)
(* ================================================================== *)

(** ** JavaScript strings *)

Module Js.

(** A code unit, and a string. *)
Abbreviation char16 := N.
Abbreviation jsstring := (list N).

(** The literal [s], one code unit per character (ASCII literals only). *)
Definition js (s : String.string) : jsstring :=
  map Ascii.N_of_ascii (String.list_ascii_of_string s).

Arguments js s%_string.

Definition LF : char16 := 10%N.

Fixpoint eqb (a b : jsstring) : bool :=
  match a, b with
  | [], [] => true
  | x :: a', y :: b' => N.eqb x y && eqb a' b'
  | _, _ => false
  end.

(** [strip_prefix p s] is [Some rest] when [s = p ++ rest]. *)
Fixpoint strip_prefix (p s : jsstring) : option jsstring :=
  match p with
  | [] => Some s
  | x :: p' =>
      match s with
      | [] => None
      | y :: s' => if N.eqb x y then strip_prefix p' s' else None
      end
  end.

(** [String.prototype.startsWith] *)
Definition startsWith (p s : jsstring) : bool :=
  match strip_prefix p s with Some _ => true | None => false end.

(** [String.prototype.includes] *)
Fixpoint includes (sub s : jsstring) : bool :=
  startsWith sub s ||
  match s with
  | [] => false
  | _ :: s' => includes sub s'
  end.

(** [String.prototype.indexOf]; [None] is [-1]. *)
Fixpoint indexOf (sub s : jsstring) : option nat :=
  if startsWith sub s then Some 0
  else match s with
       | [] => None
       | _ :: s' => option_map S (indexOf sub s')
       end.

(** [Array.prototype.includes] on an array of strings *)
Definition array_includes (l : list jsstring) (x : jsstring) : bool :=
  existsb (eqb x) l.

(** A string is truthy when it is not empty. *)
Definition truthy (s : jsstring) : bool :=
  match s with [] => false | _ => true end.

(** ECMAScript [WhiteSpace] and [LineTerminator] code units, the ones
    [String.prototype.trim] removes. *)
Definition is_ws (c : char16) : bool :=
  ((9 <=? c) && (c <=? 13) || (c =? 32) || (c =? 160) || (c =? 5760)
   || (8192 <=? c) && (c <=? 8202) || (c =? 8232) || (c =? 8233)
   || (c =? 8239) || (c =? 8287) || (c =? 12288) || (c =? 65279))%N.

Fixpoint trimStart (s : jsstring) : jsstring :=
  match s with
  | [] => []
  | c :: s' => if is_ws c then trimStart s' else s
  end.

Definition trimEnd (s : jsstring) : jsstring := rev (trimStart (rev s)).

(** [String.prototype.trim] *)
Definition trim (s : jsstring) : jsstring := trimEnd (trimStart s).

(** [\w] of a regular expression without the [u] and [i] flags. *)
Definition is_word (c : char16) : bool :=
  ((48 <=? c) && (c <=? 57) || (65 <=? c) && (c <=? 90) || (c =? 95)
   || (97 <=? c) && (c <=? 122))%N.

(** [Array.prototype.join] *)
Fixpoint join (sep : jsstring) (l : list jsstring) : jsstring :=
  match l with
  | [] => []
  | [x] => x
  | x :: l' => x ++ sep ++ join sep l'
  end.

(** [s.split(sep).pop()] for a one-unit separator: the text after the last
    separator, the whole string when there is none. *)
Fixpoint split_pop (sep : char16) (s : jsstring) : jsstring :=
  match s with
  | [] => []
  | c :: s' =>
      if N.eqb c sep then split_pop sep s'
      else if existsb (N.eqb sep) s' then split_pop sep s'
      else s
  end.

(** *** Regular expressions

    The patterns of the sources are matched the way a backtracking engine
    does it.  [search here s] is [RegExp.prototype.exec] without the [g]
    flag: the pattern, given as the function [here] that matches it at the
    start of its argument, is tried at every start position from the left;
    the result is the text before the match, what [here] captured, and the
    text after the match. *)
Fixpoint search {A : Type} (here : jsstring -> option (A * jsstring))
  (s : jsstring) : option (jsstring * A * jsstring) :=
  match here s with
  | Some (a, rest) => Some ([], a, rest)
  | None =>
      match s with
      | [] => None
      | c :: s' =>
          match search here s' with
          | Some (pre, a, rest) => Some (c :: pre, a, rest)
          | None => None
          end
      end
  end.

(** [([\s\S]*?)close]: the lazy star takes the shortest text after which
    [close] matches. *)
Fixpoint lazy_until (close s : jsstring) : option (jsstring * jsstring) :=
  match strip_prefix close s with
  | Some rest => Some ([], rest)
  | None =>
      match s with
      | [] => None
      | c :: s' =>
          match lazy_until close s' with
          | Some (g, rest) => Some (c :: g, rest)
          | None => None
          end
      end
  end.

(** [[\s\S]*close] for a one-unit [close]: the greedy star takes the longest
    text after which [close] matches; the result is the matched text. *)
Fixpoint greedy_until (close : char16) (s : jsstring) : option jsstring :=
  match s with
  | [] => None
  | c :: s' =>
      match greedy_until close s' with
      | Some m => Some (c :: m)
      | None => if N.eqb c close then Some [c] else None
      end
  end.

(** The longest run of [\w] at the start of [s], and what follows it. *)
Fixpoint span_word (s : jsstring) : jsstring * jsstring :=
  match s with
  | [] => ([], [])
  | c :: s' =>
      if is_word c then let (w, r) := span_word s' in (c :: w, r)
      else ([], s)
  end.

(** [s] occurs in [t]. *)
Definition occurs (s t : jsstring) : Prop :=
  exists a b, t = a ++ s ++ b.

(** The occurrence of [s] right after [pre] is the leftmost one in [t]. *)
Definition leftmost (s pre t : jsstring) : Prop :=
  forall a b, t = a ++ s ++ b -> length pre <= length a.

(** [String.prototype.split] with a one-unit separator: the texts between
    the separators, in order; the array is never empty ([""] for the empty
    string). *)
Fixpoint split (sep : char16) (s : jsstring) : list jsstring :=
  match s with
  | [] => [[]]
  | c :: s' =>
      if N.eqb c sep then [] :: split sep s'
      else match split sep s' with
           | seg :: rest => (c :: seg) :: rest
           | [] => [[c]]
           end
  end.

(** [String.prototype.endsWith] *)
Definition endsWith (suffix s : jsstring) : bool :=
  startsWith (rev suffix) (rev s).

(** [String.prototype.replace] with a string pattern: the first occurrence
    of the pattern is replaced (the replacements of the sources hold no
    dollar sign). *)
Fixpoint replace (pattern replacement s : jsstring) : jsstring :=
  match strip_prefix pattern s with
  | Some rest => replacement ++ rest
  | None =>
      match s with
      | [] => []
      | c :: s' => c :: replace pattern replacement s'
      end
  end.

(** [Array.prototype.slice(0, n)] *)
Definition slice0 {A : Type} (n : nat) (l : list A) : list A := firstn n l.

Fixpoint digits (u : Decimal.uint) : jsstring :=
  match u with
  | Decimal.Nil => []
  | Decimal.D0 u' => 48%N :: digits u'
  | Decimal.D1 u' => 49%N :: digits u'
  | Decimal.D2 u' => 50%N :: digits u'
  | Decimal.D3 u' => 51%N :: digits u'
  | Decimal.D4 u' => 52%N :: digits u'
  | Decimal.D5 u' => 53%N :: digits u'
  | Decimal.D6 u' => 54%N :: digits u'
  | Decimal.D7 u' => 55%N :: digits u'
  | Decimal.D8 u' => 56%N :: digits u'
  | Decimal.D9 u' => 57%N :: digits u'
  end.

(** The text of an integer number in a template literal (the integers of
    the sources, a time value and a page number, are far below the size at
    which the exponent notation starts). *)
Definition number_text (z : Z) : jsstring :=
  match Z.to_int z with
  | Decimal.Pos u => digits u
  | Decimal.Neg u => 45%N :: digits u
  end.

End Js.

Import Js.

(** ** The data model ([src/types.ts]) *)

Module Types.

Inductive Category := code | text | image | pdf | document | unknown.

(** [content: string | ArrayBuffer | null] *)
Inductive FileContent := Text (s : jsstring) | Buffer | Null.

Record UploadedFile := {
  file_id : jsstring;
  name : jsstring;
  content : FileContent;
  category : Category;
  size : N
}.

Inductive StepStatus := PENDING | PROCESSING | COMPLETED | FAILED.

Record WorkflowStep := {
  id : jsstring;
  description : jsstring;
  status : StepStatus;
  result : option jsstring;
  thinking : option jsstring
}.

Record AgentState := {
  isAnalyzing : bool;
  isExecuting : bool;
  currentStepId : option jsstring
}.

Definition status_eqb (a b : StepStatus) : bool :=
  match a, b with
  | PENDING, PENDING | PROCESSING, PROCESSING
  | COMPLETED, COMPLETED | FAILED, FAILED => true
  | _, _ => false
  end.

(** A thrown value: an [Error] object with its message, or anything else. *)
Inductive Thrown := ErrorObject (message : jsstring) | OtherValue.

(** How a call ends: with a value, or by throwing (for an [async] function:
    the promise is fulfilled, or rejected). *)
Inductive Completion (A : Type) : Type :=
| Return (a : A)
| Throw (e : Thrown).

Arguments Return {A} a.
Arguments Throw {A} e.

End Types.

Import Types.

(** ** Built-ins of the host *)

Class Host := {
  (** [String.prototype.toLowerCase] *)
  toLowerCase : jsstring -> jsstring;
  (** [JSON.parse] on a text that starts with a bracket: the elements of the
      array, at the type [string[]] the caller declares, or the
      [SyntaxError] thrown. *)
  JSON_parse : jsstring -> Completion (list jsstring)
}.

(** The lower-casing of the ASCII letters, which every host agrees with on
    ASCII text. *)
Definition ascii_lower (c : char16) : char16 :=
  if ((65 <=? c) && (c <=? 90))%N then (c + 32)%N else c.

Definition is_ascii (c : char16) : bool := (c <? 128)%N.

Class HostLaws (H : Host) : Prop := {
  toLowerCase_ascii :
    forall s, forallb is_ascii s = true -> toLowerCase s = map ascii_lower s
}.

(** ** A host for the examples

    Lower-casing of the ASCII letters, and a [JSON.parse] that reads the
    arrays of strings a plan reply is made of (white space, strings with
    the single-character escapes); any other text is answered with a
    [SyntaxError]. *)

Module ReferenceHost.

Definition is_json_ws (c : char16) : bool :=
  ((c =? 9) || (c =? 10) || (c =? 13) || (c =? 32))%N.

Fixpoint skip_ws (s : jsstring) : jsstring :=
  match s with
  | c :: s' => if is_json_ws c then skip_ws s' else s
  | [] => []
  end.

Definition unescape (c : char16) : option char16 :=
  (if c =? 34 then Some 34 else if c =? 92 then Some 92
   else if c =? 47 then Some 47 else if c =? 98 then Some 8
   else if c =? 102 then Some 12 else if c =? 110 then Some 10
   else if c =? 114 then Some 13 else if c =? 116 then Some 9
   else None)%N.

(** After the opening quote: the string and the text after its closing
    quote. *)
Fixpoint string_body (s : jsstring) : option (jsstring * jsstring) :=
  match s with
  | [] => None
  | c :: s' =>
      if (c =? 34)%N then Some ([], s')
      else if (c =? 92)%N then
        match s' with
        | [] => None
        | e :: s'' =>
            match unescape e, string_body s'' with
            | Some u, Some (str, rest) => Some (u :: str, rest)
            | _, _ => None
            end
        end
      else if (c <? 32)%N then None
      else match string_body s' with
           | Some (str, rest) => Some (c :: str, rest)
           | None => None
           end
  end.

(** The elements, from the first one to the closing bracket and the end of
    the text. *)
Fixpoint elements (fuel : nat) (s : jsstring) : option (list jsstring) :=
  match fuel, s with
  | S fuel', 34%N :: s1 =>
      match string_body s1 with
      | None => None
      | Some (str, r) =>
          match skip_ws r with
          | 44%N :: r2 =>
              match elements fuel' (skip_ws r2) with
              | Some l => Some (str :: l)
              | None => None
              end
          | 93%N :: r2 =>
              match skip_ws r2 with [] => Some [str] | _ => None end
          | _ => None
          end
      end
  | _, _ => None
  end.

Definition array (s : jsstring) : option (list jsstring) :=
  match skip_ws s with
  | 91%N :: s1 =>
      match skip_ws s1 with
      | 93%N :: s2 => match skip_ws s2 with [] => Some [] | _ => None end
      | s2 => elements (length s2) s2
      end
  | _ => None
  end.

Definition syntax_error : Thrown :=
  ErrorObject (js "Unexpected token in JSON").

Definition host : Host :=
  {| toLowerCase := map ascii_lower;
     JSON_parse := fun s =>
       match array s with
       | Some l => Return l
       | None => Throw syntax_error
       end |}.

End ReferenceHost.

(** ** The service ([src/services/geminiService.ts]) *)

Module GeminiService.

Definition DQ : jsstring := [34%N].
Definition NL : jsstring := [LF].

Definition category_name (c : Category) : jsstring :=
  match c with
  | code => js "code" | text => js "text" | image => js "image"
  | pdf => js "pdf" | document => js "document" | unknown => js "unknown"
  end.

(** [.] of a regular expression: any unit but a line terminator. *)
Definition is_line_terminator (c : char16) : bool :=
  ((c =? 10) || (c =? 13) || (c =? 8232) || (c =? 8233))%N.

(** The data-URI pattern of [getFileContent] (anchored at both ends: the
    literal [data:], a lazy run of [.], the literal [;base64,], a greedy run
    of [.]), matched after its [data:]: the first capture, the media type. *)
Fixpoint data_uri_mime (s : jsstring) : option jsstring :=
  let further :=
    match s with
    | [] => None
    | c :: s' =>
        if is_line_terminator c then None
        else match data_uri_mime s' with
             | Some m => Some (c :: m)
             | None => None
             end
    end in
  match strip_prefix (js ";base64,") s with
  | Some d => if forallb (fun c => negb (is_line_terminator c)) d
              then Some [] else further
  | None => further
  end.

Definition file_entry (f : UploadedFile) : jsstring :=
  match content f with
  | Null => []
  | Text [] => []
  | Text s =>
      match strip_prefix (js "data:") s with
      | Some r =>
          match data_uri_mime r with
          | Some mimeType =>
              NL ++ js "[File Attachment: " ++ name f ++ js " (" ++ mimeType
              ++ js ") - Binary content not displayable]" ++ NL
          | None => []
          end
      | None =>
          NL ++ js "File: " ++ name f ++ NL ++ js "Type: "
          ++ category_name (category f) ++ NL ++ js "Content:" ++ NL ++ s
          ++ NL ++ js "---" ++ NL
      end
  | Buffer =>
      NL ++ js "File: " ++ name f ++ NL ++ js "Type: "
      ++ category_name (category f) ++ NL ++ js "Content:" ++ NL
      ++ js "[object ArrayBuffer]" ++ NL ++ js "---" ++ NL
  end.

Definition getFileContent (files : list UploadedFile) : jsstring :=
  concat (map file_entry files).

Definition open_think : jsstring := js "<think>".
Definition close_think : jsstring := js "</think>".

(** [/<think>([\s\S]*?)<\/think>/] at the start of [s]: the capture and the
    text after the match. *)
Definition think_here (s : jsstring) : option (jsstring * jsstring) :=
  match strip_prefix open_think s with
  | Some r => lazy_until close_think r
  | None => None
  end.

Record Split := { split_thinking : jsstring; split_content : jsstring }.

Definition extractThinking (text : jsstring) : Split :=
  match search think_here text with
  | Some (before, captured, after) =>
      {| split_thinking := trim captured;
         split_content := trim (before ++ [] ++ after) |}
  | None => {| split_thinking := []; split_content := text |}
  end.

(** *** The inference client

    The hosted model is outside the repository: a client is any pair of
    functions from the prompt to the way the call ends. *)

Record Message := { message_content : option jsstring }.
Record Choice := { message : Message }.
Record ChatCompletionOutput := { choices : list Choice }.

(** A streamed call that ends: the [delta.content] of the chunks that
    arrived, in arrival order, and how the stream ended ([None]: it
    completed).  The [for await] loop has no timeout: a stream that never
    ends settles nothing, and the call it belongs to stays awaited. *)
Record StreamRun := {
  deltas : list (option jsstring);
  stream_failure : option Thrown
}.

Record Client := {
  chatCompletion : jsstring -> Completion ChatCompletionOutput;
  chatCompletionStream : jsstring -> StreamRun
}.

(** [x || ""] *)
Definition or_empty (x : option jsstring) : jsstring :=
  match x with Some s => s | None => [] end.

Definition planPrompt (fileContent : jsstring) : jsstring :=
  js "You are an intelligent data processing agent.
Analyze the uploaded files (code, documents, images, PDFs).
Create a logical, step-by-step workflow to process this data and SOLVE the user's implicit problem.

Guidelines:
1. Start with analysis or understanding steps.
2. The FINAL step MUST be a " ++ DQ ++ js "Solution" ++ DQ
  ++ js " step that aggregates everything (e.g., " ++ DQ
  ++ js "Generate the complete fixed code" ++ DQ ++ js ", " ++ DQ
  ++ js "Write the final comprehensive report" ++ DQ ++ js ", " ++ DQ
  ++ js "Produce the final output" ++ DQ ++ js ").
3. Keep the plan between 3 to 6 steps.

Return ONLY a JSON array of strings, where each string is a clear, actionable step description.
Example: [" ++ DQ ++ js "Analyze the code for bugs" ++ DQ ++ js ", " ++ DQ
  ++ js "Plan the refactoring" ++ DQ ++ js ", " ++ DQ
  ++ js "Generate the complete refactored python script" ++ DQ ++ js "]

Files to process:
" ++ fileContent ++ js "

Respond with ONLY the JSON array, no other text:".

(** The bracket pattern of the plan reply (an opening bracket, a greedy run
    of anything, a closing bracket) at the start of [s]: the matched text
    and the text after it. *)
Definition array_here (s : jsstring) : option (jsstring * jsstring) :=
  match s with
  | [] => None
  | c :: r =>
      if N.eqb c 91 then
        match greedy_until 93%N r with
        | Some m => Some (c :: m, skipn (length m) r)
        | None => None
        end
      else None
  end.

Definition fallback_plan : list jsstring := [js "Failed to generate plan."].

(** Reading [choices[0].message] of an empty [choices]: a [TypeError] (the
    message is the engine's). *)
Definition undefined_read : Thrown :=
  ErrorObject (js "Cannot read properties of undefined (reading 'message')").

Definition generateWorkflowPlan `{Host} (client : Client)
  (files : list UploadedFile) : Completion (list jsstring) :=
  let fileContent := getFileContent files in
  let prompt := planPrompt fileContent in
  (* try *)
  match chatCompletion client prompt with
  | Throw error => Throw error                       (* catch: throw error *)
  | Return chat =>
      match choices chat with
      | [] => Throw undefined_read                   (* catch: throw error *)
      | first :: _ =>
          let response := or_empty (message_content (message first)) in
          match search array_here response with
          | None => Return fallback_plan
          | Some (_, jsonMatch, _) => JSON_parse jsonMatch
                                                     (* catch: throw error *)
          end
      end
  end.

(** [s.status === StepStatus.COMPLETED && s.result] *)
Definition in_history (s : WorkflowStep) : bool :=
  status_eqb (status s) COMPLETED && truthy (or_empty (result s)).

(** [${s.result}] *)
Definition result_text (s : WorkflowStep) : jsstring :=
  match result s with Some r => r | None => js "undefined" end.

Definition history_entry (s : WorkflowStep) : jsstring :=
  js "PREVIOUS STEP: " ++ DQ ++ description s ++ DQ ++ NL
  ++ js "RESULT: " ++ result_text s ++ NL.

Definition history_separator : jsstring := NL ++ js "---" ++ NL.

Definition historyContext (previousSteps : list WorkflowStep) : jsstring :=
  join history_separator (map history_entry (filter in_history previousSteps)).

(** [${historyContext || "No previous steps executed yet."}] *)
Definition contextSection (previousSteps : list WorkflowStep) : jsstring :=
  if truthy (historyContext previousSteps) then historyContext previousSteps
  else js "No previous steps executed yet.".

(** The literal parts of the prompt of a step. *)
Definition stepPrompt_head : jsstring :=
  js "You are an automated agent executing a workflow.

=== CONTEXT FROM PREVIOUS STEPS ===
".

Definition stepPrompt_files : jsstring :=
  js "
===================================

=== FILES ===
".

Definition stepPrompt_task : jsstring :=
  js "
=============

=== CURRENT TASK ===
Task: ".

Definition stepPrompt_instructions : jsstring :=
  js "

Perform this task strictly based on the provided files and the context above.

IMPORTANT OUTPUT INSTRUCTIONS:
- First, wrap your thinking process in <think></think> tags to show your reasoning.
- Then provide the actual output after the thinking tags.

- If the task is to WRITE CODE (e.g., fix a bug, generate a script, provide final solution):
  Provide the COMPLETE working code inside a standard markdown code block (e.g., ```python ... ```).
  Do not truncate the code. Do not use placeholders.
  If this is the final step, ensure the code is fully functional and solves the problem identified in previous steps.

- If the task is to WRITE A REPORT or DOCUMENT:
  Provide the COMPLETE text of the report/document.
  Use standard Markdown headers (#, ##) and formatting.
  The output should be ready to be saved as a document.

- If the task is analysis or summary:
  Provide a clear, concise result that can be used in the next steps.

Your response:".

Definition stepPrompt (step : WorkflowStep) (fileContent : jsstring)
  (previousSteps : list WorkflowStep) : jsstring :=
  stepPrompt_head ++ contextSection previousSteps ++ stepPrompt_files
  ++ fileContent ++ stepPrompt_task ++ DQ ++ description step ++ DQ
  ++ stepPrompt_instructions.

(** What [executeWorkflowStep] resolves to. *)
Record StepOutput := { out_result : jsstring; out_thinking : jsstring }.

(** [fullResponse += delta] over the chunks of the stream. *)
Definition fullResponse (run : StreamRun) : jsstring :=
  concat (map or_empty (deltas run)).

(** [error instanceof Error ? error.message : "Unknown error"] *)
Definition error_text (error : Thrown) : jsstring :=
  match error with
  | ErrorObject message => message
  | OtherValue => js "Unknown error"
  end.

(** [App] passes no [onChunk], so the chunks only accumulate. *)
Definition executeWorkflowStep (client : Client) (step : WorkflowStep)
  (files : list UploadedFile) (previousSteps : list WorkflowStep)
  : Completion StepOutput :=
  let fileContent := getFileContent files in
  let prompt := stepPrompt step fileContent previousSteps in
  (* try *)
  let run := chatCompletionStream client prompt in
  match stream_failure run with
  | None =>
      let s := extractThinking (fullResponse run) in
      Return {| out_result := split_content s;
                out_thinking := split_thinking s |}
  | Some error =>                                    (* catch *)
      Return {| out_result := js "Error executing step: " ++ error_text error;
                out_thinking := [] |}
  end.

End GeminiService.

(** ** File classification ([src/utils/fileUtils.ts]) *)

Module FileUtils.

Definition DOT : char16 := 46%N.

Definition code_extensions : list jsstring :=
  [js "py"; js "js"; js "ts"; js "tsx"; js "c"; js "cpp"; js "h"; js "java";
   js "go"; js "rs"; js "html"; js "css"; js "json"; js "md"].

Definition document_extensions : list jsstring :=
  [js "doc"; js "docx"; js "ppt"; js "pptx"; js "txt"].

(** [filename.split('.').pop()?.toLowerCase()]: [split] never returns an
    empty array, so the extension is always a string. *)
Definition extension `{Host} (filename : jsstring) : jsstring :=
  toLowerCase (split_pop DOT filename).

Definition getFileCategory `{Host} (filename type : jsstring) : Category :=
  let ext := extension filename in
  if array_includes code_extensions ext then code
  else if eqb type (js "application/pdf") || eqb ext (js "pdf") then pdf
  else if startsWith (js "image/") type then image
  else if array_includes document_extensions ext
          || includes (js "text") type || includes (js "document") type
       then document
  else unknown.

(** *** Reading a file ([readFileContent], [extractTextFromPDF])

    The readers themselves (mammoth, PDF.js, [FileReader]) are outside the
    repository: what each of them would answer for the file is an input. *)

(** The branch [readFileContent] takes. *)
Inductive Reader := Mammoth | PdfJs | AsDataURL | AsText.

Definition reader `{Host} (name type : jsstring) : Reader :=
  if endsWith (js ".docx") (toLowerCase name) then Mammoth
  else if eqb type (js "application/pdf")
          || endsWith (js ".pdf") (toLowerCase name) then PdfJs
  else if startsWith (js "image/") type then AsDataURL
  else AsText.

(** [`\n--- Page ${pageNum} ---\n${pageText}\n`], with
    [pageText = items.map(item => item.str).join(' ')]. *)
Definition page_block (pageNum : nat) (items : list jsstring) : jsstring :=
  [LF] ++ js "--- Page " ++ number_text (Z.of_nat pageNum) ++ js " ---"
  ++ [LF] ++ join (js " ") items ++ [LF].

(** The loop [for (pageNum = 1; pageNum <= pdf.numPages; pageNum++)]. *)
Fixpoint page_blocks (pageNum : nat) (pages : list (list jsstring)) : jsstring :=
  match pages with
  | [] => []
  | items :: rest => page_block pageNum items ++ page_blocks (S pageNum) rest
  end.

Definition pdf_error : Thrown :=
  ErrorObject (js "Failed to extract text from PDF").

(** [extractTextFromPDF]; [pdf] is what PDF.js gives: the text items of
    every page, or a failure at some point of the reading. *)
Definition extractTextFromPDF (pdf : Completion (list (list jsstring)))
  : Completion jsstring :=
  match pdf with
  | Return pages => Return (trim (page_blocks 1 pages))
  | Throw _ => Throw pdf_error
  end.

(** What the readers answer for one file. *)
Record Readings := {
  mammoth : Completion jsstring;
  pdfjs : Completion (list (list jsstring));
  dataURL : Completion FileContent;
  asText : Completion FileContent
}.

Definition readFileContent `{Host} (name type : jsstring) (r : Readings)
  : Completion FileContent :=
  match reader name type with
  | Mammoth =>
      match mammoth r with
      | Return value => Return (Text value)
      | Throw error => Throw error
      end
  | PdfJs =>
      match extractTextFromPDF (pdfjs r) with
      | Return extractedText => Return (Text extractedText)
      | Throw error => Throw error
      end
  | AsDataURL => dataURL r
  | AsText => asText r
  end.

(** *** Building a report ([createDocxBlob])

    The document is modelled up to the paragraphs handed to [Document]; the
    packing into a blob is the library's. *)

Inductive HeadingLevel := HEADING_1 | HEADING_2 | HEADING_3.

Record Spacing := { before : option N; after : N }.

(** The options of [new Paragraph]: a text with a heading, or one text run. *)
Inductive Paragraph :=
| Headed (text : jsstring) (heading : HeadingLevel) (spacing : Spacing)
| Plain (children : list jsstring) (spacing : Spacing).

Definition paragraph_of (line : jsstring) : Paragraph :=
  if startsWith (js "# ") line then
    Headed (replace (js "# ") [] line) HEADING_1
           {| before := Some 200%N; after := 100%N |}
  else if startsWith (js "## ") line then
    Headed (replace (js "## ") [] line) HEADING_2
           {| before := Some 150%N; after := 100%N |}
  else if startsWith (js "### ") line then
    Headed (replace (js "### ") [] line) HEADING_3
           {| before := Some 100%N; after := 50%N |}
  else Plain [line] {| before := None; after := 100%N |}.

(** The [children] of the single section of the document. *)
Definition createDocxBlob (text : jsstring) : list Paragraph :=
  map paragraph_of (split LF text).

End FileUtils.

(** ** File intake (the [FileUpload] component) *)

Module FileUpload.

Import FileUtils.

(** What the component reads of a browser [File]. *)
Record File := { fname : jsstring; ftype : jsstring; fsize : N }.

(** The record built for one file once its content is read (its [type]
    property, which [UploadedFile] does not declare, is left out); [fresh]
    is the identifier [generateId] draws. *)
Definition uploaded `{Host} (fresh : jsstring) (file : File)
  (content : FileContent) : UploadedFile :=
  {| file_id := fresh; name := fname file; content := content;
     category := getFileCategory (fname file) (ftype file);
     size := fsize file |}.

(** [Promise.all(fileList.map(async file => ...))]: the records in the order
    of the list when every reading is fulfilled, [None] when one is
    rejected; [ids n] is the identifier drawn for the file of index [n]. *)
Fixpoint newFiles `{Host} (ids : nat -> jsstring) (n : nat)
  (fileList : list (File * Readings)) : option (list UploadedFile) :=
  match fileList with
  | [] => Some []
  | (file, r) :: rest =>
      match readFileContent (fname file) (ftype file) r, newFiles ids (S n) rest with
      | Return content, Some l => Some (uploaded (ids n) file content :: l)
      | _, _ => None
      end
  end.

(** [processFiles]: the file set after it; a rejection leaves the handler
    before [setFiles]. *)
Definition processFiles `{Host} (ids : nat -> jsstring)
  (fileList : list (File * Readings)) (prev : list UploadedFile)
  : list UploadedFile :=
  match newFiles ids 0 fileList with
  | Some l => prev ++ l
  | None => prev
  end.

(** [removeFile] *)
Definition removeFile (id : jsstring) (prev : list UploadedFile)
  : list UploadedFile :=
  filter (fun f => negb (eqb (file_id f) id)) prev.

End FileUpload.

(** ** Output classification (the [WorkflowList] component) *)

Module WorkflowList.

Definition fence : jsstring := js "```".

(** The fenced-block pattern of [extractCode] (three backticks, an optional
    run of [\w], a line feed, a lazy run of anything, three backticks) at
    the start of [s]: the two captures and the text after the match.  The
    optional run is greedy; giving back part of it leaves a [\w] where the
    line feed is required, so the longest run is the only one to try. *)
Definition code_here (s : jsstring)
  : option ((option jsstring * jsstring) * jsstring) :=
  match strip_prefix fence s with
  | None => None
  | Some r =>
      let (w, r') := span_word r in
      match r' with
      | [] => None
      | c :: r'' =>
          if N.eqb c LF then
            match lazy_until fence r'' with
            | Some (body, rest) =>
                Some ((match w with [] => None | _ => Some w end, body), rest)
            | None => None
            end
          else None
      end
  end.

Record CodeData := { language : jsstring; code : jsstring }.

Definition extractCode (markdown : jsstring) : option CodeData :=
  match search code_here markdown with
  | Some (_, (lang, body), _) =>
      Some {| language := match lang with Some l => l | None => js "txt" end;
              code := body |}
  | None => None
  end.

(** [step.result ? extractCode(step.result) : null] *)
Definition codeData (step : WorkflowStep) : option CodeData :=
  match result step with
  | Some r => if truthy r then extractCode r else None
  | None => None
  end.

(** The truth value of [isPotentialReport] in the rendering of one step. *)
Definition isPotentialReport `{Host} (step : WorkflowStep) : bool :=
  let d := toLowerCase (description step) in
  negb (match codeData step with Some _ => true | None => false end)
  && status_eqb (status step) COMPLETED
  && (includes (js "report") d
      || includes (js "document") d
      || includes (js "write") d
      || includes (js "summar") d
      || match result step with
         | Some r => truthy r && (500 <? length r)
         | None => false
         end).

(** *** Downloads ([handleDownloadCode], [handleDownloadDocx]) *)

(** The object literal [extensions]. *)
Definition extensions : list (jsstring * jsstring) :=
  [(js "python", js "py"); (js "py", js "py");
   (js "javascript", js "js"); (js "js", js "js");
   (js "typescript", js "ts"); (js "ts", js "ts");
   (js "cpp", js "cpp"); (js "c", js "c");
   (js "java", js "java");
   (js "html", js "html"); (js "css", js "css");
   (js "json", js "json");
   (js "markdown", js "md")].

(** The property names an object literal inherits from [Object.prototype]. *)
Definition object_prototype_names : list jsstring :=
  [js "constructor"; js "hasOwnProperty"; js "isPrototypeOf";
   js "propertyIsEnumerable"; js "toLocaleString"; js "toString";
   js "valueOf"; js "__proto__"; js "__defineGetter__";
   js "__defineSetter__"; js "__lookupGetter__"; js "__lookupSetter__"].

Fixpoint own (key : jsstring) (o : list (jsstring * jsstring))
  : option jsstring :=
  match o with
  | [] => None
  | (k, v) :: o' => if eqb k key then Some v else own key o'
  end.

(** [extensions[key] || 'txt'] as the text it has in the file name:
    the own value (none is empty); for an inherited name the text of the
    inherited value, [inherited key], which is the engine's; otherwise
    [txt]. *)
Definition extension_for (inherited : jsstring -> jsstring) (key : jsstring)
  : jsstring :=
  match own key extensions with
  | Some ext => if truthy ext then ext else js "txt"
  | None =>
      if array_includes object_prototype_names key then inherited key
      else js "txt"
  end.

(** A call of [downloadFile]. *)
Record Download (Content : Type) := {
  filename : jsstring;
  payload : Content;
  mimeType : jsstring
}.

Arguments filename {Content} d.
Arguments payload {Content} d.
Arguments mimeType {Content} d.

(** [handleDownloadCode]; [now] is [Date.now()]. *)
Definition handleDownloadCode `{Host} (inherited : jsstring -> jsstring)
  (now : Z) (content language : jsstring) : Download jsstring :=
  let ext := extension_for inherited (toLowerCase language) in
  {| filename := js "agent_code_" ++ number_text now ++ js "." ++ ext;
     payload := content;
     mimeType := js "text/plain" |}.

Definition docx_mime : jsstring :=
  js "application/vnd.openxmlformats-officedocument.wordprocessingml.document".

(** [handleDownloadDocx], when the packing succeeds. *)
Definition handleDownloadDocx (now : Z) (content : jsstring)
  : Download (list FileUtils.Paragraph) :=
  {| filename := js "agent_report_" ++ number_text now ++ js ".docx";
     payload := FileUtils.createDocxBlob content;
     mimeType := docx_mime |}.

(** *** The thinking section *)





(** *** The collapsed list *)

Definition getStepsPreview (steps : list WorkflowStep) : list WorkflowStep :=
  slice0 3 steps.

Definition stepsToShow (isWorkflowExpanded : bool) (steps : list WorkflowStep)
  : list WorkflowStep :=
  if isWorkflowExpanded then steps else getStepsPreview steps.

(** The count of the "and n more steps" line, when the line is shown. *)
Definition more_steps (isWorkflowExpanded : bool) (steps : list WorkflowStep)
  : option nat :=
  if negb isWorkflowExpanded && (3 <? length steps)
  then Some (length steps - 3) else None.

End WorkflowList.

(** ** The execution loop ([src/App.tsx]) *)

Module App.

Import GeminiService.

(** A call of [executeWorkflowStep] that [executeNextStep] is awaiting,
    with the values its closure holds: [nextStep], and the [files] and
    [workflowSteps] of the render the effect belongs to. *)
Record Call := {
  call_step : WorkflowStep;
  call_files : list UploadedFile;
  call_previous : list WorkflowStep
}.

(** The state of the component: the four [useState] cells, the calls that
    are awaited, and [effectDue].  The effect is declared with the
    dependencies [[workflowSteps, agentState.isExecuting, files]], so React
    runs it again after every commit in which one of them is a new value;
    [effectDue] says that this has happened since the effect last ran.
    Every [setWorkflowSteps] of the component passes a fresh array
    ([prev.map(...)], [newSteps], [[]]), so it always makes the effect due. *)
Record State := {
  files : list UploadedFile;
  workflowSteps : list WorkflowStep;
  agentState : AgentState;
  error : option jsstring;
  awaiting : list Call;
  effectDue : bool
}.

Definition initial : State :=
  {| files := [];
     workflowSteps := [];
     agentState := {| isAnalyzing := false; isExecuting := false;
                      currentStepId := None |};
     error := None;
     awaiting := [];
     effectDue := false |}.

(** [workflowSteps.findIndex(s => s.status === StepStatus.PENDING)];
    [None] is [-1]. *)
Fixpoint findIndex (p : WorkflowStep -> bool) (l : list WorkflowStep)
  : option nat :=
  match l with
  | [] => None
  | s :: l' =>
      if p s then Some 0
      else match findIndex p l' with Some i => Some (S i) | None => None end
  end.

Definition is_pending (s : WorkflowStep) : bool :=
  status_eqb (status s) PENDING.

(** [prev.map(s => s.id === sid ? f s : s)] *)
Definition update (sid : jsstring) (f : WorkflowStep -> WorkflowStep)
  (prev : list WorkflowStep) : list WorkflowStep :=
  map (fun s => if eqb (id s) sid then f s else s) prev.

Definition set_processing (s : WorkflowStep) : WorkflowStep :=
  {| id := id s; description := description s; status := PROCESSING;
     result := result s; thinking := thinking s |}.

Definition set_completed (r t : jsstring) (s : WorkflowStep) : WorkflowStep :=
  {| id := id s; description := description s; status := COMPLETED;
     result := Some r; thinking := Some t |}.

Definition set_failed (s : WorkflowStep) : WorkflowStep :=
  {| id := id s; description := description s; status := FAILED;
     result := Some (js "Failed to execute step."); thinking := thinking s |}.

(** The effect, up to the [await] of [executeNextStep]. *)
Definition effect (st : State) : State :=
  if negb (isExecuting (agentState st)) then
    {| files := files st; workflowSteps := workflowSteps st;
       agentState := agentState st; error := error st;
       awaiting := awaiting st; effectDue := false |}
  else
    match findIndex is_pending (workflowSteps st) with
    | None =>
        {| files := files st; workflowSteps := workflowSteps st;
           agentState := {| isAnalyzing := isAnalyzing (agentState st);
                            isExecuting := false;
                            currentStepId := None |};
           error := error st; awaiting := awaiting st; effectDue := true |}
    | Some nextStepIndex =>
        match nth_error (workflowSteps st) nextStepIndex with
        | None => st
        | Some nextStep =>
            {| files := files st;
               workflowSteps :=
                 update (id nextStep) set_processing (workflowSteps st);
               agentState := {| isAnalyzing := isAnalyzing (agentState st);
                                isExecuting := isExecuting (agentState st);
                                currentStepId := Some (id nextStep) |};
               error := error st;
               awaiting :=
                 awaiting st
                 ++ [{| call_step := nextStep; call_files := files st;
                        call_previous := workflowSteps st |}];
               effectDue := true |}
        end
    end.

(** [executeNextStep] after its [await]: the [try] continues when the
    promise is fulfilled, the [catch] runs when it is rejected. *)
Definition resume (c : Call) (o : Completion StepOutput) (st : State) : State :=
  match o with
  | Return out =>
      {| files := files st;
         workflowSteps :=
           update (id (call_step c))
                  (set_completed (out_result out) (out_thinking out))
                  (workflowSteps st);
         agentState := agentState st; error := error st;
         awaiting := awaiting st; effectDue := true |}
  | Throw _ =>
      {| files := files st;
         workflowSteps := update (id (call_step c)) set_failed (workflowSteps st);
         agentState := {| isAnalyzing := isAnalyzing (agentState st);
                          isExecuting := false;
                          currentStepId := currentStepId (agentState st) |};
         error := error st; awaiting := awaiting st; effectDue := true |}
  end.

Fixpoint remove_nth {A : Type} (k : nat) (l : list A) : list A :=
  match l, k with
  | [], _ => []
  | _ :: l', 0 => l'
  | x :: l', S k' => x :: remove_nth k' l'
  end.

Definition without (k : nat) (st : State) : State :=
  {| files := files st; workflowSteps := workflowSteps st;
     agentState := agentState st; error := error st;
     awaiting := remove_nth k (awaiting st); effectDue := effectDue st |}.

(** What happens during a run:
    - [Render]: React commits and runs the effect, which is due;
    - [Respond k client]: the model behaves as [client] for the [k]-th
      awaited call, and [executeWorkflowStep] settles accordingly;
    - [Settle k o]: the promise of the [k]-th awaited call settles with
      [o], whatever [o] is ([executeNextStep] handles both outcomes of the
      promise it awaits).
    Calls settle in any order, and the effect may run between two
    settlements; a call whose stream never ends is a call that no event
    answers.  These are the events of the execution loop alone: the
    handlers of the buttons are [handleCreateWorkflow_begin],
    [handleCreateWorkflow_end] (the plan request settling, which no event
    of the loop stands for) and [handleReset] below. *)
Inductive Event :=
| Render
| Respond (k : nat) (client : Client)
| Settle (k : nat) (o : Completion StepOutput).

Definition answer (client : Client) (c : Call) : Completion StepOutput :=
  executeWorkflowStep client (call_step c) (call_files c) (call_previous c).

Definition fire (e : Event) (st : State) : option State :=
  match e with
  | Render => if effectDue st then Some (effect st) else None
  | Respond k client =>
      match nth_error (awaiting st) k with
      | Some c => Some (resume c (answer client c) (without k st))
      | None => None
      end
  | Settle k o =>
      match nth_error (awaiting st) k with
      | Some c => Some (resume c o (without k st))
      | None => None
      end
  end.

Fixpoint run (es : list Event) (st : State) : option State :=
  match es with
  | [] => Some st
  | e :: es' =>
      match fire e st with
      | Some st' => run es' st'
      | None => None
      end
  end.

(** [handleCreateWorkflow] up to its [await]; [None]: it returned at once. *)
Definition handleCreateWorkflow_begin (st : State) : option State :=
  match files st with
  | [] => None
  | _ =>
      Some {| files := files st; workflowSteps := [];
              agentState := {| isAnalyzing := true;
                               isExecuting := isExecuting (agentState st);
                               currentStepId := currentStepId (agentState st) |};
              error := None; awaiting := awaiting st; effectDue := true |}
  end.

(** [planStrings.map(desc => ...)]; [ids n] is the identifier drawn for the
    element of index [n]. *)
Fixpoint newSteps (ids : nat -> jsstring) (n : nat) (planStrings : list jsstring)
  : list WorkflowStep :=
  match planStrings with
  | [] => []
  | desc :: rest =>
      {| id := ids n; description := desc; status := PENDING;
         result := None; thinking := None |} :: newSteps ids (S n) rest
  end.

Definition plan_error : jsstring :=
  js "Failed to generate a workflow. Please check your API key or try again.".

(** [handleCreateWorkflow] after its [await]. *)
Definition handleCreateWorkflow_end (ids : nat -> jsstring)
  (plan : Completion (list jsstring)) (st : State) : State :=
  match plan with
  | Return planStrings =>
      {| files := files st;
         workflowSteps := newSteps ids 0 planStrings;
         agentState := {| isAnalyzing := false; isExecuting := true;
                          currentStepId := currentStepId (agentState st) |};
         error := error st; awaiting := awaiting st; effectDue := true |}
  | Throw _ =>
      {| files := files st; workflowSteps := workflowSteps st;
         agentState := {| isAnalyzing := false;
                          isExecuting := isExecuting (agentState st);
                          currentStepId := currentStepId (agentState st) |};
         error := Some plan_error; awaiting := awaiting st;
         effectDue := effectDue st |}
  end.

Definition handleCreateWorkflow `{Host} (client : Client) (ids : nat -> jsstring)
  (st : State) : State :=
  match handleCreateWorkflow_begin st with
  | None => st
  | Some st1 =>
      handleCreateWorkflow_end ids (generateWorkflowPlan client (files st1)) st1
  end.

Definition handleReset (st : State) : State :=
  {| files := []; workflowSteps := [];
     agentState := {| isAnalyzing := false; isExecuting := false;
                      currentStepId := None |};
     error := None; awaiting := awaiting st; effectDue := true |}.

(** The button that calls [handleCreateWorkflow] is enabled. *)
Definition can_create (st : State) : bool :=
  negb (match files st with [] => true | _ => false end)
  && negb (isAnalyzing (agentState st))
  && negb (isExecuting (agentState st)).

End App.

(** ** Inputs of the examples *)

Module Examples.

Import GeminiService App.

Definition main_py : UploadedFile :=
  {| file_id := js "f1"; name := js "main.py";
     content := Text (js "print(1)"); category := code; size := 8%N |}.

(** One file uploaded, nothing planned yet. *)
Definition ready : State :=
  {| files := [main_py]; workflowSteps := [];
     agentState := {| isAnalyzing := false; isExecuting := false;
                      currentStepId := None |};
     error := None; awaiting := []; effectDue := false |}.

Definition chat_reply (reply : jsstring) : Completion ChatCompletionOutput :=
  Return {| choices := [{| message := {| message_content := Some reply |} |}] |}.

Definition completes (output : jsstring) : StreamRun :=
  {| deltas := [Some output]; stream_failure := None |}.

Definition fails (message : jsstring) : StreamRun :=
  {| deltas := []; stream_failure := Some (ErrorObject message) |}.

(** A model that answers the plan request with [reply] and every step with
    [run]. *)
Definition model (reply : jsstring) (run : StreamRun) : Client :=
  {| chatCompletion := fun _ => chat_reply reply;
     chatCompletionStream := fun _ => run |}.

(** A model that is down: every call fails with [message]. *)
Definition unreachable (message : jsstring) : Client :=
  {| chatCompletion := fun _ => Throw (ErrorObject message);
     chatCompletionStream := fun _ => fails message |}.

Definition ids (n : nat) : jsstring :=
  match n with
  | 0 => js "k3x9a1q" | 1 => js "p07zmw2" | 2 => js "c5v8r4e"
  | _ => js "z" ++ repeat 48%N n
  end.

Definition step_A : WorkflowStep :=
  {| id := js "k3x9a1q"; description := js "Analyze the code";
     status := PENDING; result := None; thinking := None |}.

Definition step_B : WorkflowStep :=
  {| id := js "p07zmw2"; description := js "Fix the bug";
     status := PENDING; result := None; thinking := None |}.

(** The state right after a plan of two steps was instantiated. *)
Definition planned : State :=
  {| files := [main_py]; workflowSteps := [step_A; step_B];
     agentState := {| isAnalyzing := false; isExecuting := true;
                      currentStepId := None |};
     error := None; awaiting := []; effectDue := true |}.

(** The plan reply of the round-trip example. *)
Definition round_trip_reply : jsstring :=
  js "[" ++ GeminiService.DQ ++ js "Analyze the code" ++ GeminiService.DQ ++ js ", " ++ GeminiService.DQ
  ++ js "Fix the bug" ++ GeminiService.DQ ++ js ", " ++ GeminiService.DQ
  ++ js "Generate the complete fixed code" ++ GeminiService.DQ ++ js "]".

(** The two-step plan once the effect has run three times: both steps
    started, both calls awaited. *)
Definition started : State := effect (effect (effect planned)).

(** A text file that reads well, and a PDF that PDF.js rejects. *)
Definition notes_txt : FileUpload.File * FileUtils.Readings :=
  ({| FileUpload.fname := js "notes.txt"; FileUpload.ftype := js "text/plain";
      FileUpload.fsize := 5%N |},
   {| FileUtils.mammoth := Throw OtherValue;
      FileUtils.pdfjs := Throw OtherValue;
      FileUtils.dataURL := Throw OtherValue;
      FileUtils.asText := Return (Text (js "hello")) |}).

Definition scan_pdf : FileUpload.File * FileUtils.Readings :=
  ({| FileUpload.fname := js "scan.pdf";
      FileUpload.ftype := js "application/pdf";
      FileUpload.fsize := 1024%N |},
   {| FileUtils.mammoth := Throw OtherValue;
      FileUtils.pdfjs := Throw (ErrorObject (js "Invalid PDF structure"));
      FileUtils.dataURL := Throw OtherValue;
      FileUtils.asText := Throw OtherValue |}).

End Examples.

(** ** The vocabulary of the specification

    What the properties of Part II say about texts, replies, rules and
    states, in the words of the specification. *)

Module Spec.

Import GeminiService FileUtils App.

(** [text] holds a delimiter pair: an opening delimiter with a closing one
    somewhere after it. *)
Definition has_pair (text : jsstring) : Prop :=
  exists a g b, text = a ++ open_think ++ g ++ close_think ++ b.

(** The pair around [g] is the first matched pair of [text]: its opening
    delimiter is the leftmost one, and its closing delimiter is the first
    one after it. *)
Definition first_pair (text pre g post : jsstring) : Prop :=
  text = pre ++ open_think ++ g ++ close_think ++ post
  /\ leftmost open_think pre text
  /\ leftmost close_think g (g ++ close_think ++ post).

(** The rules of the classification policy, in the words of the
    specification. *)
Definition code_rule (ext : jsstring) : Prop := In ext code_extensions.

Definition pdf_rule (ext type : jsstring) : Prop :=
  type = js "application/pdf" \/ ext = js "pdf".

Definition image_rule (type : jsstring) : Prop :=
  exists r, type = js "image/" ++ r.

Definition document_rule (ext type : jsstring) : Prop :=
  In ext document_extensions
  \/ occurs (js "text") type \/ occurs (js "document") type.

(** The policy: the first rule that applies decides. *)
Definition policy (ext type : jsstring) (c : Category) : Prop :=
  (code_rule ext /\ c = code)
  \/ (~ code_rule ext /\ pdf_rule ext type /\ c = pdf)
  \/ (~ code_rule ext /\ ~ pdf_rule ext type /\ image_rule type /\ c = image)
  \/ (~ code_rule ext /\ ~ pdf_rule ext type /\ ~ image_rule type
      /\ document_rule ext type /\ c = document)
  \/ (~ code_rule ext /\ ~ pdf_rule ext type /\ ~ image_rule type
      /\ ~ document_rule ext type /\ c = unknown).

(** The fenced block of the specification: the fence with the tag [python],
    a line feed, [print(1)], a line feed, the fence. *)
Definition python_block : jsstring :=
  js "```python" ++ NL ++ js "print(1)" ++ NL ++ js "```".

(** A fenced block starts right after [a] in [s]: three backticks, a run of
    word characters (the tag, which may be empty), a line feed, some text
    and three backticks. *)
Definition fenced_block_at (a s : jsstring) : Prop :=
  exists tag body rest,
    s = a ++ WorkflowList.fence ++ tag ++ [LF] ++ body
          ++ WorkflowList.fence ++ rest
    /\ forallb is_word tag = true.

(** No fenced block of [s] starts before the end of [pre]. *)
Definition no_block_before (pre s : jsstring) : Prop :=
  forall a, fenced_block_at a s -> length pre <= length a.

Definition LBRACKET : jsstring := [91%N].
Definition RBRACKET : jsstring := [93%N].

(** [reply] holds an array literal: an opening bracket with a closing
    bracket somewhere after it. *)
Definition has_array (reply : jsstring) : Prop :=
  exists a b c, reply = a ++ LBRACKET ++ b ++ RBRACKET ++ c.

(** The array literal of [reply] is the text [literal], from the first
    opening bracket to the last closing bracket. *)
Definition array_literal (reply literal : jsstring) : Prop :=
  exists a b c,
    reply = a ++ LBRACKET ++ b ++ RBRACKET ++ c
    /\ ~ In 91%N a /\ ~ In 93%N c
    /\ literal = LBRACKET ++ b ++ RBRACKET.

(** The text of the reply: the content of the first choice. *)
Definition reply_of (client : Client) (files : list UploadedFile)
  (reply : jsstring) : Prop :=
  exists chat first rest,
    chatCompletion client (planPrompt (getFileContent files)) = Return chat
    /\ choices chat = first :: rest
    /\ reply = or_empty (message_content (message first)).

(** The state does not execute: the flag that gates the effect is down. *)
Definition halted (st : State) : Prop := isExecuting (agentState st) = false.

(** No step goes from Pending to Processing between [st] and [st'], and no
    call of the executor is added. *)
Definition starts_nothing (st st' : State) : Prop :=
  (forall i s s',
      nth_error (workflowSteps st) i = Some s ->
      nth_error (workflowSteps st') i = Some s' ->
      status s = PENDING -> status s' <> PROCESSING)
  /\ length (awaiting st') <= length (awaiting st).

(** The line a paragraph of a report stands for: the heading marker and the
    text, or the text of the runs. *)
Definition line_of (p : Paragraph) : jsstring :=
  match p with
  | Headed t HEADING_1 _ => js "# " ++ t
  | Headed t HEADING_2 _ => js "## " ++ t
  | Headed t HEADING_3 _ => js "### " ++ t
  | Plain children _ => concat children
  end.

(** The marker that ends the media type of a data URL. *)
Definition base64_marker : jsstring := js ";base64,".

(** [s] holds no line terminator. *)
Definition no_line_terminator (s : jsstring) : bool :=
  forallb (fun c => negb (is_line_terminator c)) s.

(** [ext] is a lower-case ASCII code extension without a dot. *)
Definition plain_code_extension (ext : jsstring) : bool :=
  array_includes code_extensions ext
  && negb (existsb (N.eqb DOT) ext)
  && forallb is_ascii ext
  && eqb (map ascii_lower ext) ext
  && truthy ext.

(** The step list once every Pending step has been started. *)
Definition launched (steps : list WorkflowStep) : list WorkflowStep :=
  map (fun s => if is_pending s then set_processing s else s) steps.

Definition pending_count (steps : list WorkflowStep) : nat :=
  length (filter is_pending steps).

(** The event is one of the program as it is: the effect running, or a
    call settling the way [executeWorkflowStep] settles it. *)
Definition from_executor (e : Event) : bool :=
  match e with Settle _ _ => false | _ => true end.

(** The context a call was given holds no earlier result. *)
Definition without_context (c : Call) : Prop :=
  contextSection (call_previous c) = js "No previous steps executed yet.".

(** The agent state with every flag down. *)
Definition idle : AgentState :=
  {| isAnalyzing := false; isExecuting := false; currentStepId := None |}.

(** Every step that is not Completed has a call that is awaited. *)
Definition all_in_flight (st : State) : Prop :=
  forall s,
    In s (workflowSteps st) ->
    status s = COMPLETED
    \/ exists c, In c (awaiting st) /\ id (call_step c) = id s.

(** How far a status is along Pending, Processing, terminal. *)
Definition rank (s : StepStatus) : nat :=
  match s with
  | PENDING => 0
  | PROCESSING => 1
  | COMPLETED | FAILED => 2
  end.

End Spec.

(* ================================================================== *)
(** * Part II: properties *)
(* ================================================================== *)

(** ** Facts about strings and patterns *)

Module JsFacts.

Lemma eqb_refl (a : jsstring) : eqb a a = true.
Proof.
  induction a as [|x a IH]; simpl; [reflexivity|].
  now rewrite N.eqb_refl, IH.
Qed.

Lemma eqb_eq (a b : jsstring) : eqb a b = true <-> a = b.
Proof.
  split; [|intros ->; apply eqb_refl].
  revert b; induction a as [|x a IH]; intros [|y b]; simpl; try discriminate.
  - reflexivity.
  - intros H. apply andb_true_iff in H as [H1 H2].
    apply N.eqb_eq in H1. apply IH in H2. congruence.
Qed.

Lemma strip_prefix_app (p r : jsstring) : strip_prefix p (p ++ r) = Some r.
Proof.
  induction p as [|x p IH]; simpl; [reflexivity|].
  now rewrite N.eqb_refl.
Qed.

Lemma strip_prefix_Some (p s r : jsstring) :
  strip_prefix p s = Some r -> s = p ++ r.
Proof.
  revert s; induction p as [|x p IH]; intros s; simpl.
  - congruence.
  - destruct s as [|y s]; [discriminate|].
    destruct (N.eqb_spec x y) as [->|]; [|discriminate].
    intros H. now rewrite (IH _ H).
Qed.

Lemma strip_prefix_None (p s : jsstring) :
  strip_prefix p s = None -> forall r, s <> p ++ r.
Proof.
  intros H r ->. now rewrite strip_prefix_app in H.
Qed.

Lemma startsWith_true (p s : jsstring) :
  startsWith p s = true <-> exists r, s = p ++ r.
Proof.
  unfold startsWith. split.
  - destruct (strip_prefix p s) eqn:E; [|discriminate].
    intros _. eexists. eapply strip_prefix_Some, E.
  - intros [r ->]. now rewrite strip_prefix_app.
Qed.

Lemma includes_occurs (sub s : jsstring) :
  includes sub s = true <-> occurs sub s.
Proof.
  split.
  - induction s as [|c s IH]; simpl; intros H;
      apply orb_true_iff in H as [H|H]; try discriminate.
    + apply startsWith_true in H as [r Hr]. now exists [], r.
    + apply startsWith_true in H as [r Hr]. now exists [], r.
    + destruct (IH H) as (a & b & ->). now exists (c :: a), b.
  - intros (a & b & ->). induction a as [|c a IH]; simpl.
    + destruct (sub ++ b) eqn:E; simpl;
        apply orb_true_iff; left; apply startsWith_true; exists b; now rewrite E.
    + apply orb_true_iff; right. exact IH.
Qed.

Lemma lazy_until_sound (close s g rest : jsstring) :
  lazy_until close s = Some (g, rest) -> s = g ++ close ++ rest.
Proof.
  revert g; induction s as [|c s IH]; intros g; simpl.
  - destruct (strip_prefix close []) eqn:E; [|discriminate].
    intros H; injection H as <- <-. simpl. now apply strip_prefix_Some.
  - destruct (strip_prefix close (c :: s)) eqn:E.
    + intros H; injection H as <- <-. simpl. now apply strip_prefix_Some.
    + destruct (lazy_until close s) as [[g' r']|]; [|discriminate].
      intros H; injection H as <- <-. simpl. f_equal. now apply IH.
Qed.

Lemma lazy_until_leftmost (close g rest : jsstring) :
  leftmost close g (g ++ close ++ rest) ->
  lazy_until close (g ++ close ++ rest) = Some (g, rest).
Proof.
  induction g as [|c g IH]; intros L.
  - simpl. destruct (close ++ rest) eqn:E; simpl;
      rewrite <- E, strip_prefix_app; reflexivity.
  - simpl. destruct (strip_prefix close (c :: g ++ close ++ rest)) as [r|] eqn:E.
    + apply strip_prefix_Some in E.
      specialize (L [] r E). simpl in L. lia.
    + rewrite IH; [reflexivity|].
      intros a b Hab. specialize (L (c :: a) b). simpl in L.
      rewrite Hab in L. specialize (L eq_refl). lia.
Qed.

Lemma lazy_until_complete (close g rest : jsstring) :
  lazy_until close (g ++ close ++ rest) <> None.
Proof.
  induction g as [|c g IH].
  - simpl. destruct (close ++ rest) eqn:E; simpl;
      rewrite <- E, strip_prefix_app; discriminate.
  - simpl. destruct (strip_prefix close (c :: g ++ close ++ rest));
      [discriminate|].
    destruct (lazy_until close (g ++ close ++ rest)) as [[? ?]|];
      [discriminate|contradiction].
Qed.

Section Search.

Variable A : Type.
Variable here : jsstring -> option (A * jsstring).

Lemma search_sound {s pre rest : jsstring} {a : A} :
  search here s = Some (pre, a, rest) ->
  exists s', s = pre ++ s' /\ here s' = Some (a, rest).
Proof.
  revert pre; induction s as [|c s IH]; intros pre; simpl.
  - destruct (here []) as [[a' r']|] eqn:E; [|discriminate].
    intros H; injection H as <- <- <-. now exists [].
  - destruct (here (c :: s)) as [[a' r']|] eqn:E.
    + intros H; injection H as <- <- <-. now exists (c :: s).
    + destruct (search here s) as [[[p a'] r']|]; [|discriminate].
      intros H; injection H as <- <- <-.
      destruct (IH p eq_refl) as (s' & -> & Hs'). now exists s'.
Qed.

Lemma search_first (pre s' rest : jsstring) (a : A) :
  here s' = Some (a, rest) ->
  (forall p1 p2, pre = p1 ++ p2 -> p2 <> [] -> here (p2 ++ s') = None) ->
  search here (pre ++ s') = Some (pre, a, rest).
Proof.
  intros Hs'. induction pre as [|c pre IH]; intros Hn.
  - simpl. destruct s'; simpl; now rewrite Hs'.
  - assert (E : here (c :: pre ++ s') = None)
      by (apply (Hn [] (c :: pre) eq_refl); discriminate).
    simpl. rewrite E, IH; [reflexivity|].
    intros p1 p2 -> Hp2. now apply (Hn (c :: p1) p2).
Qed.

Lemma search_None {s : jsstring} :
  search here s = None -> forall a b, s = a ++ b -> here b = None.
Proof.
  induction s as [|c s IH]; simpl.
  - destruct (here []) as [[? ?]|] eqn:E; [discriminate|].
    intros _ a b H. symmetry in H. apply app_eq_nil in H as [_ ->]. exact E.
  - destruct (here (c :: s)) as [[? ?]|] eqn:E; [discriminate|].
    destruct (search here s) as [[[? ?] ?]|] eqn:E'; [discriminate|].
    intros _ [|x a] b H; simpl in H.
    + now subst b.
    + injection H as -> ->. now apply (IH eq_refl a b).
Qed.

End Search.

(** Trimming removes white space only, so a text that neither starts nor
    ends with white space survives it wherever it occurs. *)
Lemma occurs_trimStart {c : char16} {w s : jsstring} :
  is_ws c = false -> occurs (c :: w) s -> occurs (c :: w) (trimStart s).
Proof.
  intros Hc (a & b & ->). induction a as [|x a IH]; simpl.
  - rewrite Hc. now exists [], b.
  - destruct (is_ws x); [exact IH|]. now exists (x :: a), b.
Qed.

Lemma occurs_rev (w s : jsstring) : occurs w s -> occurs (rev w) (rev s).
Proof.
  intros (a & b & ->). exists (rev b), (rev a).
  now rewrite !rev_app_distr, app_assoc.
Qed.

Lemma occurs_trim (w s : jsstring) (c d : char16) :
  hd_error w = Some c -> is_ws c = false ->
  hd_error (rev w) = Some d -> is_ws d = false ->
  occurs w s -> occurs w (trim s).
Proof.
  intros Hc Wc Hd Wd O. unfold trim, trimEnd.
  destruct w as [|c' w]; [discriminate|]. injection Hc as ->.
  apply (occurs_trimStart Wc) in O.
  apply occurs_rev in O.
  destruct (rev (c :: w)) as [|d' w'] eqn:E; [discriminate|].
  injection Hd as ->.
  apply (occurs_trimStart Wd) in O.
  apply occurs_rev in O. rewrite <- E, rev_involutive in O. exact O.
Qed.

Lemma occurs_app_r (w a b : jsstring) : occurs w b -> occurs w (a ++ b).
Proof.
  intros (x & y & ->). exists (a ++ x), y. now rewrite app_assoc.
Qed.


Lemma app_split {A : Type} {a1 b1 a2 b2 : list A} :
  a1 ++ b1 = a2 ++ b2 -> length a1 <= length a2 ->
  exists x, a2 = a1 ++ x /\ b1 = x ++ b2.
Proof.
  revert a2; induction a1 as [|c a1 IH]; intros a2 E L; simpl in *.
  - now exists a2.
  - destruct a2 as [|d a2]; simpl in *; [lia|].
    injection E as -> E. destruct (IH a2 E ltac:(lia)) as (x & -> & ->).
    now exists x.
Qed.

Lemma indexOf_leftmost (sub pre t : jsstring) :
  indexOf sub t = Some (length pre) -> leftmost sub pre t.
Proof.
  revert pre; induction t as [|c t IH]; intros pre; simpl.
  - destruct (startsWith sub []); [|discriminate].
    intros H a b _. injection H as H. lia.
  - destruct (startsWith sub (c :: t)) eqn:E.
    + intros H a b _. injection H as H. lia.
    + destruct (indexOf sub t) as [n|] eqn:En; [|discriminate]. simpl.
      intros H; injection H as H.
      destruct pre as [|x pre]; [discriminate|]. simpl in H.
      injection H as H. subst n.
      intros [|y a] b Hab; simpl in *.
      * assert (startsWith sub (c :: t) = true)
          by (apply startsWith_true; now exists b).
        congruence.
      * injection Hab as _ Hab. specialize (IH pre eq_refl a b Hab). lia.
Qed.

Lemma indexOf_None (sub t : jsstring) :
  indexOf sub t = None -> ~ occurs sub t.
Proof.
  induction t as [|c t IH]; simpl.
  - destruct (startsWith sub []) eqn:E; [discriminate|].
    intros _ (a & b & H). destruct a; [|discriminate]. simpl in H.
    assert (startsWith sub [] = true) by (apply startsWith_true; now exists b).
    congruence.
  - destruct (startsWith sub (c :: t)) eqn:E; [discriminate|].
    destruct (indexOf sub t); [discriminate|].
    intros _ (a & b & H). destruct a as [|y a]; simpl in H.
    + assert (startsWith sub (c :: t) = true)
        by (apply startsWith_true; now exists b).
      congruence.
    + injection H as _ H. apply (IH eq_refl). now exists a, b.
Qed.

Lemma lazy_until_is_leftmost (close s g rest : jsstring) :
  lazy_until close s = Some (g, rest) -> leftmost close g s.
Proof.
  revert g; induction s as [|c s IH]; intros g; simpl.
  - destruct (strip_prefix close []); [|discriminate].
    intros H; injection H as <- <-. intros a b _. simpl. lia.
  - destruct (strip_prefix close (c :: s)) eqn:E.
    + intros H; injection H as <- <-. intros a b _. simpl. lia.
    + destruct (lazy_until close s) as [[g' r']|] eqn:E'; [|discriminate].
      intros H; injection H as <- <-.
      intros [|y a] b Hab; simpl in *.
      * rewrite Hab, strip_prefix_app in E. discriminate.
      * injection Hab as _ Hab. specialize (IH g' eq_refl a b Hab). lia.
Qed.

Lemma search_before {A : Type} {here : jsstring -> option (A * jsstring)}
  {s pre rest : jsstring} {a : A} :
  search here s = Some (pre, a, rest) ->
  forall p1 p2 s', s = p1 ++ p2 ++ s' -> pre = p1 ++ p2 -> p2 <> [] ->
                   here (p2 ++ s') = None.
Proof.
  revert pre; induction s as [|c s IH]; intros pre; simpl.
  - destruct (here []) as [[a' r']|]; [|discriminate].
    intros H; injection H as <- <- <-.
    intros p1 p2 s' _ H. symmetry in H. apply app_eq_nil in H as [_ ->].
    contradiction.
  - destruct (here (c :: s)) as [[a' r']|] eqn:E.
    + intros H; injection H as <- <- <-.
      intros p1 p2 s' _ H. symmetry in H. apply app_eq_nil in H as [_ ->].
      contradiction.
    + destruct (search here s) as [[[p a'] r']|] eqn:E'; [|discriminate].
      intros H; injection H as <- <- <-.
      intros [|x p1] p2 s' Hs Hp Hne; simpl in *.
      * now rewrite <- Hs.
      * injection Hs as _ Hs. injection Hp as _ Hp.
        now apply (IH p eq_refl p1 p2 s').
Qed.

End JsFacts.

(** ** The thinking split ([extractThinking]) *)

Module ThinkingSplit.

Import GeminiService JsFacts Spec.

Lemma think_here_pair (g post : jsstring) :
  leftmost close_think g (g ++ close_think ++ post) ->
  think_here (open_think ++ g ++ close_think ++ post) = Some (g, post).
Proof.
  intros L. unfold think_here. rewrite strip_prefix_app.
  now apply lazy_until_leftmost.
Qed.

Lemma think_here_sound {s g post : jsstring} :
  think_here s = Some (g, post) ->
  s = open_think ++ g ++ close_think ++ post.
Proof.
  unfold think_here.
  destruct (strip_prefix open_think s) as [r|] eqn:E; [|discriminate].
  intros H. apply strip_prefix_Some in E. apply lazy_until_sound in H.
  now subst.
Qed.

Lemma think_here_complete (g b : jsstring) :
  think_here (open_think ++ g ++ close_think ++ b) <> None.
Proof.
  unfold think_here. rewrite strip_prefix_app. apply lazy_until_complete.
Qed.

Lemma search_first_pair {text pre g post : jsstring} :
  first_pair text pre g post -> search think_here text = Some (pre, g, post).
Proof.
  intros (-> & Lo & Lc).
  apply search_first; [now apply think_here_pair|].
  intros p1 p2 -> Hne. unfold think_here.
  destruct (strip_prefix open_think _) as [r|] eqn:E; [|reflexivity].
  apply strip_prefix_Some in E.
  specialize (Lo p1 r). rewrite <- app_assoc, E in Lo.
  specialize (Lo eq_refl). rewrite length_app in Lo.
  destruct p2; [contradiction|simpl in Lo; lia].
Qed.

Lemma search_is_first_pair {text pre g post : jsstring} :
  search think_here text = Some (pre, g, post) -> first_pair text pre g post.
Proof.
  intros S. destruct (search_sound _ _ S) as (s' & -> & H).
  pose proof (think_here_sound H) as ->.
  split; [reflexivity|]. split.
  - intros a b Hab.
    destruct (Nat.le_gt_cases (length pre) (length a)) as [|Lt]; [assumption|].
    exfalso. symmetry in Hab.
    destruct (app_split Hab ltac:(lia)) as (x & -> & Hx).
    assert (Hne : x <> []).
    { intros ->. rewrite length_app in Lt. simpl in Lt. lia. }
    pose proof (search_before S a x _
                  ltac:(now rewrite <- app_assoc) eq_refl Hne) as N.
    rewrite <- Hx in N.
    assert (L : length open_think <= length (x ++ open_think ++ g)).
    { rewrite !length_app. lia. }
    assert (Hx' : open_think ++ b = (x ++ open_think ++ g) ++ close_think ++ post).
    { rewrite Hx. now rewrite <- !app_assoc. }
    destruct (app_split Hx' L) as (y & _ & ->).
    now apply think_here_complete in N.
  - unfold think_here in H. rewrite strip_prefix_app in H.
    now apply lazy_until_is_leftmost in H.
Qed.

Lemma search_no_pair {text : jsstring} :
  ~ has_pair text -> search think_here text = None.
Proof.
  intros N. destruct (search think_here text) as [[[pre g] post]|] eqn:S;
    [|reflexivity].
  exfalso. apply N. destruct (search_is_first_pair S) as (-> & _).
  now exists pre, g, post.
Qed.

Lemma search_has_pair (text : jsstring) :
  has_pair text -> search think_here text <> None.
Proof.
  intros (a & g & b & ->) S.
  pose proof (search_None _ _ S a _ eq_refl) as N.
  now apply think_here_complete in N.
Qed.

(** C4.  The split of a raw model output.  When the output holds a delimiter
    pair, it holds a first matched pair, and for the first matched pair the
    thinking trace is the text strictly between the delimiters, trimmed, and
    the content is the text with the delimited region removed, trimmed; the
    output [<think>reasoning here</think>Final answer text] gives the
    thinking [reasoning here] and the content [Final answer text].  When the
    output holds no delimiter pair, the thinking trace is empty and the
    content is the whole output, unchanged. *)
Theorem extractThinking_split :
  (forall text pre g post,
      first_pair text pre g post ->
      extractThinking text
      = {| split_thinking := trim g; split_content := trim (pre ++ post) |})
  /\ (forall text, has_pair text -> exists pre g post, first_pair text pre g post)
  /\ extractThinking (js "<think>reasoning here</think>Final answer text")
     = {| split_thinking := js "reasoning here";
          split_content := js "Final answer text" |}
  /\ (forall text,
         ~ has_pair text ->
         extractThinking text = {| split_thinking := []; split_content := text |}).
Proof.
  repeat split.
  - intros text pre g post F. unfold extractThinking.
    now rewrite (search_first_pair F).
  - intros text P.
    destruct (search think_here text) as [[[pre g] post]|] eqn:S.
    + exists pre, g, post. now apply search_is_first_pair.
    + now apply search_has_pair in P.
  - intros text N. unfold extractThinking. now rewrite (search_no_pair N).
Qed.

(** C10.  Only the first matched pair is removed.  For an output whose first
    matched pair is followed by further pairs, the content is the output
    without the first pair (trimmed), and every pair found after the first
    one is still in the content, delimiters included.  For an output with an
    opening delimiter and no closing delimiter after an opening one, the
    thinking trace is empty and the content is the output itself, so the
    unmatched delimiter stays in it. *)
Theorem extractThinking_first_pair_only :
  (forall text pre g post,
      first_pair text pre g post ->
      split_thinking (extractThinking text) = trim g
      /\ split_content (extractThinking text) = trim (pre ++ post)
      /\ forall g2,
           occurs (open_think ++ g2 ++ close_think) post ->
           occurs (open_think ++ g2 ++ close_think)
                  (split_content (extractThinking text)))
  /\ (forall text,
         occurs open_think text ->
         (forall a b, text = a ++ open_think ++ b -> ~ occurs close_think b) ->
         split_thinking (extractThinking text) = []
         /\ split_content (extractThinking text) = text
         /\ occurs open_think (split_content (extractThinking text))).
Proof.
  split.
  - intros text pre g post F. unfold extractThinking.
    rewrite (search_first_pair F). simpl. repeat split.
    intros g2 O.
    assert (L : hd_error (rev (open_think ++ g2 ++ close_think)) = Some 62%N).
    { rewrite !rev_app_distr. reflexivity. }
    eapply occurs_trim; [reflexivity| |exact L| |]; try reflexivity.
    now apply occurs_app_r.
  - intros text O N.
    assert (P : ~ has_pair text).
    { intros (a & g & b & E). apply (N a _ E). now exists g, b. }
    unfold extractThinking. rewrite (search_no_pair P). simpl. auto.
Qed.

Lemma first_pair_by_index (text pre g post : jsstring) :
  text = pre ++ open_think ++ g ++ close_think ++ post ->
  indexOf open_think text = Some (length pre) ->
  indexOf close_think (g ++ close_think ++ post) = Some (length g) ->
  first_pair text pre g post.
Proof.
  intros E Io Ic. split; [exact E|]. split; now apply indexOf_leftmost.
Qed.

(** The split of [Sure. <think> plan </think> Done.] and of a text without
    delimiters. *)
Lemma extractThinking_split_witness :
  extractThinking (js "Sure. <think> plan </think> Done.")
  = {| split_thinking := js "plan"; split_content := js "Sure.  Done." |}
  /\ extractThinking (js "No reasoning at all. ")
     = {| split_thinking := []; split_content := js "No reasoning at all. " |}.
Proof.
  split.
  - apply (proj1 extractThinking_split
             (js "Sure. <think> plan </think> Done.")
             (js "Sure. ") (js " plan ") (js " Done.")).
    apply first_pair_by_index; reflexivity.
  - apply (proj2 (proj2 (proj2 extractThinking_split))).
    intros (a & g & b & E).
    apply (indexOf_None open_think (js "No reasoning at all. ") eq_refl).
    now exists a, (g ++ close_think ++ b).
Defined.

(** Two pairs: the second one stays in the content; an opening delimiter
    that is never closed stays in the content too. *)
Lemma extractThinking_first_pair_only_witness :
  occurs (js "<think>two</think>")
         (split_content
            (extractThinking (js "<think>one</think>A<think>two</think>B")))
  /\ split_content (extractThinking (js "x <think>never closed"))
     = js "x <think>never closed".
Proof.
  split.
  - assert (F : first_pair (js "<think>one</think>A<think>two</think>B")
                           [] (js "one") (js "A<think>two</think>B"))
      by (apply first_pair_by_index; reflexivity).
    apply (proj2 (proj2 (proj1 extractThinking_first_pair_only _ _ _ _ F))
             (js "two")).
    now exists (js "A"), (js "B").
  - apply (proj2 extractThinking_first_pair_only (js "x <think>never closed")).
    + now exists (js "x "), (js "never closed").
    + intros a b E O.
      apply (indexOf_None close_think (js "x <think>never closed") eq_refl).
      rewrite E. now apply occurs_app_r, occurs_app_r.
Defined.

End ThinkingSplit.
(** ** Context chaining ([historyContext] of [executeWorkflowStep]) *)

Module ContextChaining.

Import GeminiService JsFacts.

Lemma in_history_iff (s : WorkflowStep) :
  in_history s = true
  <-> status s = COMPLETED /\ exists r, result s = Some r /\ r <> [].
Proof.
  unfold in_history. rewrite andb_true_iff. split.
  - intros [Hs Hr]. split.
    + destruct (status s); simpl in Hs; congruence.
    + destruct (result s) as [[|c r]|]; simpl in Hr; try discriminate.
      exists (c :: r). split; [reflexivity|discriminate].
  - intros [-> (r & -> & Hr)]. split; [reflexivity|].
    destruct r; [contradiction|reflexivity].
Qed.

Lemma in_history_status (s : WorkflowStep) :
  status s <> COMPLETED -> in_history s = false.
Proof.
  intros N. destruct (in_history s) eqn:E; [|reflexivity].
  apply in_history_iff in E as [E _]. contradiction.
Qed.

Lemma join_cons (sep x y : jsstring) (l : list jsstring) :
  join sep (x :: y :: l) = x ++ sep ++ join sep (y :: l).
Proof. reflexivity. Qed.

(** Where an element of a joined list ends up. *)
Lemma join_middle (sep : jsstring) (m1 : list jsstring) (x : jsstring)
  (m2 : list jsstring) :
  exists a,
    join sep (m1 ++ x :: m2)
    = a ++ x ++ match m2 with [] => [] | _ => sep ++ join sep m2 end.
Proof.
  induction m1 as [|y m1 [a IH]].
  - exists []. destruct m2; simpl; [now rewrite app_nil_r|reflexivity].
  - exists (y ++ sep ++ a). simpl app.
    destruct (m1 ++ x :: m2) as [|z l] eqn:E.
    + now destruct m1.
    + rewrite join_cons, IH. now rewrite <- !app_assoc.
Qed.

Lemma join_two (sep : jsstring) (m1 : list jsstring) (x : jsstring)
  (m2 : list jsstring) (y : jsstring) (m3 : list jsstring) :
  exists a b c, join sep (m1 ++ x :: m2 ++ y :: m3) = a ++ x ++ b ++ y ++ c.
Proof.
  destruct (join_middle sep m1 x (m2 ++ y :: m3)) as [a ->].
  destruct (join_middle sep m2 y m3) as [a' E'].
  destruct (m2 ++ y :: m3) as [|z t] eqn:Z.
  - now destruct m2.
  - rewrite E'. eexists a, (sep ++ a'), _. now rewrite <- !app_assoc.
Qed.

Lemma occurs_join (sep x : jsstring) (l : list jsstring) :
  In x l -> occurs x (join sep l).
Proof.
  intros I. apply in_split in I as (m1 & m2 & ->).
  destruct (join_middle sep m1 x m2) as [a ->]. now eexists a, _.
Qed.

Lemma occurs_trans (u v w : jsstring) : occurs u v -> occurs v w -> occurs u w.
Proof.
  intros (a & b & ->) (c & d & ->). exists (c ++ a), (b ++ d).
  now rewrite <- !app_assoc.
Qed.

Lemma description_in_entry (s : WorkflowStep) :
  occurs (description s) (history_entry s).
Proof.
  unfold history_entry. eexists (js "PREVIOUS STEP: " ++ DQ), _.
  now rewrite <- !app_assoc.
Qed.

Lemma result_in_entry (s : WorkflowStep) (r : jsstring) :
  result s = Some r -> occurs r (history_entry s).
Proof.
  intros E. unfold history_entry, result_text. rewrite E.
  exists (js "PREVIOUS STEP: " ++ DQ ++ description s ++ DQ ++ NL
          ++ js "RESULT: "), NL.
  now rewrite <- !app_assoc.
Qed.

Lemma entry_in_context (l : list WorkflowStep) (s : WorkflowStep) :
  In s l -> in_history s = true -> occurs (history_entry s) (historyContext l).
Proof.
  intros I H. apply occurs_join, in_map, filter_In. now split.
Qed.

Lemma context_in_prompt (step : WorkflowStep) (fc : jsstring)
  (l : list WorkflowStep) :
  historyContext l <> [] -> occurs (historyContext l) (stepPrompt step fc l).
Proof.
  intros N. unfold stepPrompt, contextSection.
  destruct (historyContext l) as [|c h] eqn:E; [contradiction|]. simpl truthy.
  cbv iota. now eexists stepPrompt_head, _.
Qed.

(** C5 as the claim words it fails: a completed step whose final content is
    empty is left out of the context, description included. *)
Lemma completed_step_missing_from_context :
  ~ (forall (previousSteps : list WorkflowStep) (s : WorkflowStep),
        In s previousSteps -> status s = COMPLETED ->
        occurs (description s) (historyContext previousSteps)).
Proof.
  intros C.
  pose (A := {| id := js "a1"; description := js "Analyze the code";
                status := COMPLETED; result := Some [];
                thinking := Some (js "nothing to add") |}).
  specialize (C [A] A (or_introl eq_refl) eq_refl).
  destruct C as (a & b & E). vm_compute in E. now destruct a.
Qed.

(** C5, amended.  The context built from the list of steps holds, in the
    order of the list, the entry (description and final content) of every
    step that is Completed with a non-empty final content; the entry of such
    a step reaches the prompt of the next step; a step that is Pending,
    Processing or Failed leaves the context as it is without it.  With [A]
    Completed holding [X] and [B], [C] Pending, the context is the entry of
    [A] alone. *)
Theorem history_context_chaining :
  forall previousSteps : list WorkflowStep,
    (forall s r,
        In s previousSteps -> status s = COMPLETED -> result s = Some r ->
        r <> [] ->
        occurs (description s) (historyContext previousSteps)
        /\ occurs r (historyContext previousSteps)
        /\ forall step fc,
             occurs (history_entry s) (stepPrompt step fc previousSteps))
    /\ (forall l1 s1 l2 s2 l3,
           previousSteps = l1 ++ s1 :: l2 ++ s2 :: l3 ->
           in_history s1 = true -> in_history s2 = true ->
           exists a b c,
             historyContext previousSteps
             = a ++ history_entry s1 ++ b ++ history_entry s2 ++ c)
    /\ (forall l1 s l2,
           previousSteps = l1 ++ s :: l2 -> status s <> COMPLETED ->
           historyContext previousSteps = historyContext (l1 ++ l2))
    /\ (forall A B C x,
           status A = COMPLETED -> result A = Some x -> x <> [] ->
           status B = PENDING -> status C = PENDING ->
           previousSteps = [A; B; C] ->
           historyContext previousSteps
           = js "PREVIOUS STEP: " ++ DQ ++ description A ++ DQ ++ NL
             ++ js "RESULT: " ++ x ++ NL).
Proof.
  intros l. repeat split.
  - eapply occurs_trans; [apply description_in_entry|].
    apply entry_in_context; [assumption|]. apply in_history_iff. eauto.
  - eapply occurs_trans; [apply result_in_entry; eassumption|].
    apply entry_in_context; [assumption|]. apply in_history_iff. eauto.
  - intros step fc.
    assert (O : occurs (history_entry s) (historyContext l)).
    { apply entry_in_context; [assumption|]. apply in_history_iff. eauto. }
    eapply occurs_trans; [exact O|]. apply context_in_prompt.
    intros E. rewrite E in O. destruct O as (a & b & O).
    destruct a; discriminate.
  - intros l1 s1 l2 s2 l3 -> H1 H2. unfold historyContext.
    rewrite filter_app. cbn [filter]. rewrite H1, filter_app. cbn [filter].
    rewrite H2, map_app. cbn [map]. rewrite map_app. cbn [map].
    apply join_two.
  - intros l1 s l2 -> N. unfold historyContext.
    rewrite !filter_app. cbn [filter]. now rewrite (in_history_status _ N).
  - intros A B C x SA RA NA SB SC ->. unfold historyContext. cbn [filter].
    assert (HA : in_history A = true) by (apply in_history_iff; eauto).
    rewrite HA, !in_history_status by congruence. cbn [map join].
    unfold history_entry, result_text. now rewrite RA.
Qed.

(** The chain [A] (Completed, content [X]), [B], [C] of the specification. *)
Lemma history_context_chaining_witness :
  let A := {| id := js "a"; description := js "Analyze the code";
              status := COMPLETED; result := Some (js "X"); thinking := None |} in
  let B := {| id := js "b"; description := js "Fix the bug";
              status := PENDING; result := None; thinking := None |} in
  let C := {| id := js "c"; description := js "Generate the complete fixed code";
              status := PENDING; result := None; thinking := None |} in
  occurs (js "Analyze the code") (historyContext [A; B; C])
  /\ occurs (js "X") (historyContext [A; B; C])
  /\ historyContext [A; B; C] = historyContext ([A] ++ [C])
  /\ includes (js "Generate the complete fixed code") (historyContext [A; B; C])
     = false.
Proof.
  intros A B C.
  pose proof (history_context_chaining [A; B; C]) as (H1 & _ & H3 & _).
  destruct (H1 A (js "X") (or_introl eq_refl) eq_refl eq_refl
              ltac:(discriminate)) as (Hd & Hx & _).
  split; [exact Hd|]. split; [exact Hx|]. split.
  - apply (H3 [A] B [C] eq_refl). discriminate.
  - reflexivity.
Defined.

End ContextChaining.

(** ** File classification ([getFileCategory]) *)

Module Classification.

Import FileUtils JsFacts Spec.

Lemma array_includes_In (l : list jsstring) (x : jsstring) :
  array_includes l x = true <-> In x l.
Proof.
  unfold array_includes. rewrite existsb_exists. split.
  - intros (y & I & E). apply eqb_eq in E. now subst.
  - intros I. exists x. split; [assumption|apply eqb_refl].
Qed.

Lemma code_rule_dec (ext : jsstring) :
  array_includes code_extensions ext = false -> ~ code_rule ext.
Proof. intros E I. apply array_includes_In in I. congruence. Qed.

Lemma pdf_rule_dec (ext type : jsstring) :
  eqb type (js "application/pdf") || eqb ext (js "pdf") = false ->
  ~ pdf_rule ext type.
Proof.
  intros E. apply orb_false_iff in E as [E1 E2].
  intros [P|P]; apply eqb_eq in P; congruence.
Qed.

Lemma image_rule_dec (type : jsstring) :
  startsWith (js "image/") type = false -> ~ image_rule type.
Proof. intros E I. apply startsWith_true in I. congruence. Qed.

Lemma document_rule_dec (ext type : jsstring) :
  array_includes document_extensions ext
  || includes (js "text") type || includes (js "document") type = false ->
  ~ document_rule ext type.
Proof.
  intros E. apply orb_false_iff in E as [E E3].
  apply orb_false_iff in E as [E1 E2].
  intros [D|[D|D]].
  - apply array_includes_In in D. congruence.
  - apply includes_occurs in D. congruence.
  - apply includes_occurs in D. congruence.
Qed.

Lemma reference_host_laws : HostLaws ReferenceHost.host.
Proof. constructor. reflexivity. Qed.

Section WithHost.

Context {H : Host} {L : HostLaws H}.

Lemma extension_ascii (filename : jsstring) :
  forallb is_ascii (split_pop DOT filename) = true ->
  extension filename = map ascii_lower (split_pop DOT filename).
Proof. intros A. unfold extension. now apply toLowerCase_ascii. Qed.

Lemma getFileCategory_policy (filename type : jsstring) :
  policy (extension filename) type (getFileCategory filename type).
Proof.
  unfold getFileCategory, policy.
  destruct (array_includes code_extensions (extension filename)) eqn:C.
  { left. split; [now apply array_includes_In|reflexivity]. }
  apply code_rule_dec in C. right.
  destruct (eqb type (js "application/pdf")
            || eqb (extension filename) (js "pdf")) eqn:P.
  { left. repeat split; [assumption|].
    apply orb_true_iff in P as [P|P]; apply eqb_eq in P; [now left|now right]. }
  apply pdf_rule_dec in P. right.
  destruct (startsWith (js "image/") type) eqn:I.
  { left. repeat split; try assumption. now apply startsWith_true. }
  apply image_rule_dec in I. right.
  destruct (array_includes document_extensions (extension filename)
            || includes (js "text") type || includes (js "document") type) eqn:D.
  { left. repeat split; try assumption.
    apply orb_true_iff in D as [D|D]; [apply orb_true_iff in D as [D|D]|].
    - left. now apply array_includes_In.
    - right; left. now apply includes_occurs.
    - right; right. now apply includes_occurs. }
  apply document_rule_dec in D. right. now repeat split.
Qed.

End WithHost.

(** C8 as the claim words it fails: a media type can hold [document] and
    still start with [image/]; the image rule comes first, whatever the
    extension. *)
Lemma report_docx_image_type :
  ~ (forall (H : Host) (L : HostLaws H) (type : jsstring),
        occurs (js "document") type ->
        getFileCategory (js "report.docx") type = document).
Proof.
  intros C.
  specialize (C ReferenceHost.host reference_host_laws (js "image/document")).
  assert (O : occurs (js "document") (js "image/document"))
    by now exists (js "image/"), [].
  specialize (C O). vm_compute in C. discriminate.
Qed.

(** C8, amended.  The category of a file follows the policy, the first rule
    that applies deciding: a known code or markup extension gives [code]
    (so [main.cpp] is [code] whatever the media type); otherwise the PDF
    media type or extension gives [pdf]; otherwise a media type that starts
    with [image/] gives [image]; otherwise a known document extension, or a
    media type that holds [text] or [document], gives [document] (so
    [report.docx] with a media type that holds [document] and does not start
    with [image/] is [document]); otherwise [unknown]. *)
Theorem getFileCategory_precedence :
  forall (H : Host) (L : HostLaws H),
    (forall filename type,
        policy (extension filename) type (getFileCategory filename type))
    /\ (forall type, getFileCategory (js "main.cpp") type = code)
    /\ (forall type,
           occurs (js "document") type -> ~ image_rule type ->
           getFileCategory (js "report.docx") type = document).
Proof.
  intros H L. split; [apply getFileCategory_policy|]. split.
  - intros type. unfold getFileCategory.
    rewrite (extension_ascii (js "main.cpp") eq_refl). reflexivity.
  - intros type O I. unfold getFileCategory.
    rewrite (extension_ascii (js "report.docx") eq_refl).
    change (map ascii_lower (split_pop DOT (js "report.docx"))) with (js "docx").
    change (array_includes code_extensions (js "docx")) with false.
    change (eqb (js "docx") (js "pdf")) with false.
    change (array_includes document_extensions (js "docx")) with true.
    cbv iota. rewrite orb_false_r.
    destruct (eqb type (js "application/pdf")) eqn:P.
    + apply eqb_eq in P. subst type. apply includes_occurs in O.
      vm_compute in O. discriminate.
    + destruct (startsWith (js "image/") type) eqn:S; [|reflexivity].
      apply startsWith_true in S. contradiction.
Qed.

(** The examples of the specification on the reference host, with the media
    type browsers give a [.docx] file. *)
Lemma getFileCategory_precedence_witness :
  @getFileCategory ReferenceHost.host (js "main.cpp") (js "text/plain") = code
  /\ @getFileCategory ReferenceHost.host (js "report.docx")
       (js "application/vnd.openxmlformats-officedocument.wordprocessingml.document")
     = document.
Proof.
  destruct (getFileCategory_precedence ReferenceHost.host reference_host_laws)
    as (_ & Hc & Hd).
  split; [apply Hc|]. apply Hd.
  - now exists (js "application/vnd.openxmlformats-officedocument.wordprocessingml."), [].
  - apply image_rule_dec. reflexivity.
Defined.

End Classification.

(** ** Output classification ([extractCode], [isPotentialReport]) *)

Module OutputClassification.

Import WorkflowList GeminiService JsFacts Spec.

Lemma code_here_python_block (post : jsstring) :
  code_here (python_block ++ post)
  = Some ((Some (js "python"), js "print(1)" ++ NL), post).
Proof. reflexivity. Qed.

Lemma code_block_suppresses_report `{Host} (step : WorkflowStep) :
  codeData step <> None -> isPotentialReport step = false.
Proof.
  intros N. unfold isPotentialReport.
  destruct (codeData step); [reflexivity|contradiction].
Qed.

(** C9 as the claim words it fails: the captured payload runs up to the
    closing fence, so it ends with the line feed that precedes the fence;
    and a fenced block that comes earlier in the content is the one that is
    extracted. *)
Lemma extractCode_payload_keeps_line_feed :
  extractCode python_block
  <> Some {| language := js "python"; code := js "print(1)" |}
  /\ extractCode (js "```js" ++ NL ++ js "f()" ++ NL ++ js "``` then "
                  ++ python_block)
     = Some {| language := js "js"; code := js "f()" ++ NL |}.
Proof.
  split; [|reflexivity]. vm_compute. discriminate.
Qed.

End OutputClassification.

(** ** Plan generation ([generateWorkflowPlan], [handleCreateWorkflow]) *)

Module PlanGeneration.

Import GeminiService App JsFacts Spec.

Lemma greedy_until_None (close : char16) (s : jsstring) :
  ~ In close s -> greedy_until close s = None.
Proof.
  induction s as [|c s IH]; simpl; [reflexivity|].
  intros Hn. rewrite IH by tauto.
  destruct (N.eqb_spec c close) as [->|]; [tauto|reflexivity].
Qed.

Lemma greedy_until_last (close : char16) (b c : jsstring) :
  ~ In close c -> greedy_until close (b ++ [close] ++ c) = Some (b ++ [close]).
Proof.
  intros Hn. induction b as [|x b IH]; simpl.
  - now rewrite (greedy_until_None _ _ Hn), N.eqb_refl.
  - simpl in IH. now rewrite IH.
Qed.

Lemma greedy_until_sound (close : char16) (s m : jsstring) :
  greedy_until close s = Some m ->
  exists b c, m = b ++ [close] /\ s = b ++ [close] ++ c.
Proof.
  revert m; induction s as [|x s IH]; simpl; [discriminate|].
  intros m. destruct (greedy_until close s) as [m'|].
  - intros E; injection E as <-. destruct (IH m' eq_refl) as (b & c & -> & ->).
    now exists (x :: b), c.
  - destruct (N.eqb_spec x close) as [->|]; [|discriminate].
    intros E; injection E as <-. now exists [], s.
Qed.

Lemma array_here_bracket (r : jsstring) :
  array_here (91%N :: r)
  = match greedy_until 93%N r with
    | Some m => Some (91%N :: m, skipn (length m) r)
    | None => None
    end.
Proof. reflexivity. Qed.

Lemma search_array_literal (reply literal : jsstring) :
  array_literal reply literal ->
  exists a c, search array_here reply = Some (a, literal, c).
Proof.
  intros (a & b & c & -> & Na & Nc & ->). exists a, c.
  apply search_first.
  - change (LBRACKET ++ b ++ RBRACKET ++ c) with (91%N :: b ++ [93%N] ++ c).
    rewrite array_here_bracket, (greedy_until_last _ b c Nc).
    rewrite app_assoc, skipn_app, skipn_all, Nat.sub_diag. reflexivity.
  - intros p1 [|x p2] -> Hne; [contradiction|]. simpl.
    destruct (N.eqb_spec x 91) as [->|]; [|reflexivity].
    exfalso. apply Na, in_or_app. right. now left.
Qed.

Lemma search_no_array (reply : jsstring) :
  ~ has_array reply -> search array_here reply = None.
Proof.
  intros Hn. destruct (search array_here reply) as [[[a m] c]|] eqn:S;
    [|reflexivity].
  exfalso. apply Hn. destruct (search_sound _ _ S) as (s' & -> & E).
  unfold array_here in E. destruct s' as [|x r]; [discriminate|].
  destruct (N.eqb_spec x 91) as [->|]; [|discriminate].
  destruct (greedy_until 93 r) as [m'|] eqn:G; [|discriminate].
  apply greedy_until_sound in G as (b & c' & _ & ->).
  now exists a, b, c'.
Qed.

Section WithHost.

Context {H : Host}.

Lemma plan_without_array (client : Client) (files : list UploadedFile)
  (reply : jsstring) :
  reply_of client files reply -> ~ has_array reply ->
  generateWorkflowPlan client files = Return fallback_plan.
Proof.
  intros (chat & first & rest & E1 & E2 & ->) N.
  unfold generateWorkflowPlan. rewrite E1, E2. now rewrite (search_no_array _ N).
Qed.

Lemma plan_with_array (client : Client) (files : list UploadedFile)
  (reply literal : jsstring) :
  reply_of client files reply -> array_literal reply literal ->
  generateWorkflowPlan client files = JSON_parse literal.
Proof.
  intros (chat & first & rest & E1 & E2 & ->) A.
  destruct (search_array_literal _ _ A) as (a & c & S).
  unfold generateWorkflowPlan. now rewrite E1, E2, S.
Qed.

Lemma create_workflow_throw (client : Client) (ids : nat -> jsstring)
  (st : State) (e : Thrown) :
  can_create st = true ->
  generateWorkflowPlan client (files st) = Throw e ->
  let st' := handleCreateWorkflow client ids st in
  error st' = Some plan_error
  /\ workflowSteps st' = []
  /\ isAnalyzing (agentState st') = false
  /\ isExecuting (agentState st') = false
  /\ awaiting st' = awaiting st.
Proof.
  intros C E. unfold can_create in C.
  apply andb_true_iff in C as [C Ce]. apply andb_true_iff in C as [Cf Ca].
  unfold handleCreateWorkflow, handleCreateWorkflow_begin.
  destruct (files st) as [|f fs] eqn:F; [discriminate|].
  cbn [files]. rewrite E. cbn.
  apply negb_true_iff in Ce. now rewrite Ce.
Qed.

End WithHost.

Lemma greedy_until_None_inv (close : char16) (s : jsstring) :
  greedy_until close s = None -> ~ In close s.
Proof.
  induction s as [|x s IH]; simpl; [tauto|].
  destruct (greedy_until close s); [discriminate|].
  destruct (N.eqb_spec x close); [discriminate|].
  intros _ [E|I]; [congruence|now apply IH].
Qed.

Lemma greedy_until_longest (close : char16) (s m : jsstring) :
  greedy_until close s = Some m ->
  exists b c, m = b ++ [close] /\ s = b ++ [close] ++ c /\ ~ In close c.
Proof.
  revert m; induction s as [|x s IH]; simpl; [discriminate|].
  intros m. destruct (greedy_until close s) as [m'|] eqn:G.
  - intros E; injection E as <-.
    destruct (IH m' eq_refl) as (b & c & -> & -> & Hc).
    now exists (x :: b), c.
  - destruct (N.eqb_spec x close) as [->|]; [|discriminate].
    intros E; injection E as <-. exists [], s.
    repeat split. now apply greedy_until_None_inv.
Qed.

Lemma has_array_literal (reply : jsstring) :
  has_array reply -> exists literal, array_literal reply literal.
Proof.
  intros (a0 & b0 & c0 & E0).
  destruct (search array_here reply) as [[[a m] c]|] eqn:S.
  - destruct (search_sound _ _ S) as (s' & -> & E).
    destruct s' as [|x r]; [discriminate|]. unfold array_here in E.
    destruct (N.eqb_spec x 91) as [->|]; [|discriminate].
    destruct (greedy_until 93 r) as [m'|] eqn:G; [|discriminate].
    injection E as <- <-.
    destruct (greedy_until_longest _ _ _ G) as (b & c' & -> & -> & Hc).
    exists (LBRACKET ++ b ++ RBRACKET), a, b, c'.
    repeat split; try assumption.
    + intros I. apply in_split in I as (p1 & p2 & ->).
      assert (Hne : 91%N :: p2 <> []) by discriminate.
      pose proof (search_before S p1 (91%N :: p2) _
                    ltac:(now rewrite <- app_assoc) eq_refl Hne) as F.
      simpl app in F. rewrite array_here_bracket in F.
      match type of F with
      | context [greedy_until 93%N ?t] =>
          destruct (greedy_until 93%N t) eqn:G'; [discriminate|]
      end.
      apply greedy_until_None_inv in G'. apply G'.
      apply in_or_app. right. right. apply in_or_app. right. now left.
  - exfalso. subst reply.
    pose proof (search_None _ _ S a0 _ eq_refl) as F.
    change (LBRACKET ++ b0 ++ RBRACKET ++ c0) with (91%N :: b0 ++ [93%N] ++ c0) in F.
    rewrite array_here_bracket in F.
    match type of F with
    | context [greedy_until 93%N ?t] =>
        destruct (greedy_until 93%N t) eqn:G'; [discriminate|]
    end.
    apply greedy_until_None_inv in G'. apply G'.
    apply in_or_app. right. now left.
Qed.

(** C7.  The handling of the plan reply.  When the reply holds no array
    literal, the generator returns the sequence of the single element
    [Failed to generate plan.] and does not throw.  When the reply holds
    one, the generator parses the text from the first opening bracket to the
    last closing bracket; when that text is malformed, the parse error is
    thrown to the caller, which shows the message [Failed to generate a
    workflow. Please check your API key or try again.], creates no step and
    leaves the agent state idle. *)
Theorem plan_reply_handling :
  forall (H : Host) (client : Client) (ids : nat -> jsstring) (st : State)
         (reply : jsstring),
    can_create st = true ->
    reply_of client (files st) reply ->
    (~ has_array reply ->
     generateWorkflowPlan client (files st)
     = Return [js "Failed to generate plan."])
    /\ (has_array reply ->
        exists literal,
          array_literal reply literal
          /\ generateWorkflowPlan client (files st) = JSON_parse literal)
    /\ (forall literal e,
           array_literal reply literal -> JSON_parse literal = Throw e ->
           generateWorkflowPlan client (files st) = Throw e
           /\ let st' := handleCreateWorkflow client ids st in
              error st'
              = Some (js "Failed to generate a workflow. Please check your API key or try again.")
              /\ workflowSteps st' = []
              /\ isAnalyzing (agentState st') = false
              /\ isExecuting (agentState st') = false
              /\ awaiting st' = awaiting st).
Proof.
  intros H client ids st reply C R. split; [|split].
  - intros Hn. apply (plan_without_array _ _ _ R Hn).
  - intros A. destruct (has_array_literal _ A) as (literal & L).
    exists literal. split; [exact L|]. apply (plan_with_array _ _ _ _ R L).
  - intros literal e L P.
    assert (G : generateWorkflowPlan client (files st) = Throw e)
      by (rewrite (plan_with_array _ _ _ _ R L); exact P).
    split; [exact G|]. apply (create_workflow_throw _ ids _ _ C G).
Qed.

(** A reply without an array, and a reply whose array is malformed, on the
    reference host. *)
Lemma plan_reply_handling_witness :
  @generateWorkflowPlan ReferenceHost.host
    (Examples.model (js "I cannot produce a plan.") (Examples.completes []))
    [Examples.main_py]
  = Return [js "Failed to generate plan."]
  /\ error (@handleCreateWorkflow ReferenceHost.host
              (Examples.model (js "Plan: [analyze, fix]") (Examples.completes []))
              Examples.ids Examples.ready)
     = Some (js "Failed to generate a workflow. Please check your API key or try again.").
Proof.
  split.
  - refine (proj1 (plan_reply_handling ReferenceHost.host
                     (Examples.model (js "I cannot produce a plan.")
                                     (Examples.completes []))
                     Examples.ids Examples.ready
                     (js "I cannot produce a plan.") eq_refl _) _).
    + now eexists _, _, _.
    + intros (a & b & c & E).
      apply (indexOf_None LBRACKET (js "I cannot produce a plan.") eq_refl).
      now exists a, (b ++ RBRACKET ++ c).
  - refine (proj1 (proj2 (proj2 (proj2
              (plan_reply_handling ReferenceHost.host
                 (Examples.model (js "Plan: [analyze, fix]")
                                 (Examples.completes []))
                 Examples.ids Examples.ready
                 (js "Plan: [analyze, fix]") eq_refl _))
              (js "[analyze, fix]") ReferenceHost.syntax_error _ eq_refl))).
    + now eexists _, _, _.
    + exists (js "Plan: "), (js "analyze, fix"), [].
      repeat split; simpl; intuition discriminate.
Defined.

(** C6 at the failing input: after a plan reply without an array literal no
    error is shown, the step list holds one Pending step described
    [Failed to generate plan.], the agent state is executing, and the next
    run of the effect starts that step. *)
Theorem plan_failure_without_array :
  forall (H : Host) (client : Client) (ids : nat -> jsstring) (st : State)
         (reply : jsstring),
    can_create st = true ->
    reply_of client (files st) reply ->
    ~ has_array reply ->
    let st' := handleCreateWorkflow client ids st in
    error st' = None
    /\ workflowSteps st'
       = [{| id := ids 0; description := js "Failed to generate plan.";
             status := PENDING; result := None; thinking := None |}]
    /\ isExecuting (agentState st') = true
    /\ exists st'',
         fire Render st' = Some st''
         /\ map status (workflowSteps st'') = [PROCESSING]
         /\ length (awaiting st'') = S (length (awaiting st)).
Proof.
  intros H client ids st reply C R Hn.
  pose proof (plan_without_array _ _ _ R Hn) as G.
  unfold can_create in C.
  apply andb_true_iff in C as [C Ce]. apply andb_true_iff in C as [Cf Ca].
  unfold handleCreateWorkflow, handleCreateWorkflow_begin.
  destruct (files st) as [|f fs] eqn:F; [discriminate|].
  cbn [files]. rewrite G. cbn.
  repeat split. eexists. split; [reflexivity|].
  unfold effect. cbn. rewrite eqb_refl. cbn.
  split; [reflexivity|]. rewrite length_app. simpl. lia.
Qed.

Lemma plan_failure_without_array_witness :
  map description
      (workflowSteps
         (@handleCreateWorkflow ReferenceHost.host
            (Examples.model (js "I cannot produce a plan.")
                            (Examples.completes []))
            Examples.ids Examples.ready))
  = [js "Failed to generate plan."].
Proof.
  refine (f_equal (map description)
            (proj1 (proj2 (plan_failure_without_array ReferenceHost.host
               (Examples.model (js "I cannot produce a plan.")
                               (Examples.completes []))
               Examples.ids Examples.ready
               (js "I cannot produce a plan.") eq_refl _ _)))).
  - now eexists _, _, _.
  - intros (a & b & c & E).
    apply (indexOf_None LBRACKET (js "I cannot produce a plan.") eq_refl).
    now exists a, (b ++ RBRACKET ++ c).
Defined.

Lemma newSteps_descriptions (ids : nat -> jsstring) (n : nat)
  (plan : list jsstring) :
  map description (newSteps ids n plan) = plan
  /\ map id (newSteps ids n plan) = map ids (seq n (length plan))
  /\ Forall (fun s => status s = PENDING /\ result s = None /\ thinking s = None)
            (newSteps ids n plan).
Proof.
  revert n; induction plan as [|d plan IH]; intros n; simpl.
  - repeat split. constructor.
  - destruct (IH (S n)) as (Hd & Hi & Hp). rewrite Hd, Hi.
    repeat split. constructor; [repeat split|exact Hp].
Qed.

(** X1.  Plan round trip.  When the array literal of the plan reply parses
    to a sequence of descriptions, the step list is instantiated with one
    step per description, in the order of the sequence, every step Pending
    and without result; no error is shown and execution is switched on.  The
    reply [["Analyze the code", "Fix the bug", "Generate the complete fixed
    code"]] gives three steps. *)
Theorem plan_round_trip :
  forall (H : Host) (client : Client) (ids : nat -> jsstring) (st : State)
         (reply literal : jsstring) (plan : list jsstring),
    can_create st = true ->
    reply_of client (files st) reply ->
    array_literal reply literal ->
    JSON_parse literal = Return plan ->
    let st' := handleCreateWorkflow client ids st in
    map description (workflowSteps st') = plan
    /\ map id (workflowSteps st') = map ids (seq 0 (length plan))
    /\ Forall (fun s => status s = PENDING /\ result s = None
                        /\ thinking s = None)
              (workflowSteps st')
    /\ error st' = None
    /\ isAnalyzing (agentState st') = false
    /\ isExecuting (agentState st') = true.
Proof.
  intros H client ids st reply literal plan C R L P.
  assert (G : generateWorkflowPlan client (files st) = Return plan)
    by (rewrite (plan_with_array _ _ _ _ R L); exact P).
  unfold can_create in C.
  apply andb_true_iff in C as [C Ce]. apply andb_true_iff in C as [Cf Ca].
  unfold handleCreateWorkflow, handleCreateWorkflow_begin.
  destruct (files st) as [|f fs] eqn:F; [discriminate|].
  cbn [files]. rewrite G.
  cbn [handleCreateWorkflow_end workflowSteps error agentState isAnalyzing
       isExecuting].
  destruct (newSteps_descriptions ids 0 plan) as (Hd & Hi & Hp).
  repeat split; assumption.
Qed.

Lemma plan_round_trip_witness :
  map description
      (workflowSteps
         (@handleCreateWorkflow ReferenceHost.host
            (Examples.model Examples.round_trip_reply (Examples.completes []))
            Examples.ids Examples.ready))
  = [js "Analyze the code"; js "Fix the bug";
     js "Generate the complete fixed code"].
Proof.
  refine (proj1 (plan_round_trip ReferenceHost.host
                   (Examples.model Examples.round_trip_reply (Examples.completes []))
                   Examples.ids Examples.ready Examples.round_trip_reply
                   Examples.round_trip_reply
                   [js "Analyze the code"; js "Fix the bug";
                    js "Generate the complete fixed code"]
                   eq_refl _ _ eq_refl)).
  - now eexists _, _, _.
  - exists [], (removelast (tl Examples.round_trip_reply)), [].
    repeat split; simpl; tauto.
Defined.

End PlanGeneration.

(** ** The execution loop ([executeNextStep] in the effect of [App]) *)

Module ExecutionLoop.

Import GeminiService App JsFacts Spec.

Lemma findIndex_first (p : WorkflowStep -> bool) (l : list WorkflowStep)
  (i : nat) :
  findIndex p l = Some i ->
  (exists s, nth_error l i = Some s /\ p s = true)
  /\ forall j s, j < i -> nth_error l j = Some s -> p s = false.
Proof.
  revert i; induction l as [|x l IH]; simpl; [discriminate|].
  intros i. destruct (p x) eqn:P.
  - intros E; injection E as <-. split; [now exists x|]. intros j s Hj. lia.
  - destruct (findIndex p l) as [i'|]; [|discriminate].
    intros E; injection E as <-. destruct (IH i' eq_refl) as [(s & Hs & Ps) Hb].
    split; [now exists s|].
    intros [|j] s' Hj; simpl; [congruence|]. apply Hb. lia.
Qed.

Lemma nth_error_update (sid : jsstring) (f : WorkflowStep -> WorkflowStep)
  (l : list WorkflowStep) (i : nat) :
  nth_error (update sid f l) i
  = option_map (fun s => if eqb (id s) sid then f s else s) (nth_error l i).
Proof. unfold update. apply nth_error_map. Qed.

Lemma remove_nth_length {A : Type} (k : nat) (l : list A) :
  length (remove_nth k l) <= length l.
Proof.
  revert k; induction l as [|x l IH]; intros [|k]; simpl; try lia.
  specialize (IH k). lia.
Qed.

Lemma executeWorkflowStep_failure (client : Client) (step : WorkflowStep)
  (files : list UploadedFile) (previousSteps : list WorkflowStep) (e : Thrown) :
  stream_failure
    (chatCompletionStream client
       (stepPrompt step (getFileContent files) previousSteps)) = Some e ->
  executeWorkflowStep client step files previousSteps
  = Return {| out_result := js "Error executing step: " ++ error_text e;
              out_thinking := [] |}.
Proof. intros E. unfold executeWorkflowStep. now rewrite E. Qed.

(** C1 at the failing input.  When the model call of an awaited step fails
    with [e], the executor does not throw: it resolves to the content
    [Error executing step: ] followed by the message, with an empty thinking
    trace.  The loop then takes the branch of a fulfilled promise: every
    step with the identifier of the call becomes Completed with that
    content, the other steps are as they were, and the executing flag is
    unchanged, so the run goes on. *)
Theorem model_error_marks_step_completed :
  forall (client : Client) (st : State) (k : nat) (c : Call) (e : Thrown),
    nth_error (awaiting st) k = Some c ->
    stream_failure
      (chatCompletionStream client
         (stepPrompt (call_step c) (getFileContent (call_files c))
                     (call_previous c))) = Some e ->
    let message := js "Error executing step: " ++ error_text e in
    answer client c = Return {| out_result := message; out_thinking := [] |}
    /\ exists st',
        fire (Respond k client) st = Some st'
        /\ isExecuting (agentState st') = isExecuting (agentState st)
        /\ forall i s,
            nth_error (workflowSteps st) i = Some s ->
            nth_error (workflowSteps st') i
            = Some (if eqb (id s) (id (call_step c))
                    then {| id := id s; description := description s;
                            status := COMPLETED; result := Some message;
                            thinking := Some [] |}
                    else s).
Proof.
  intros client st k c e K F message.
  assert (A : answer client c
              = Return {| out_result := message; out_thinking := [] |})
    by (apply executeWorkflowStep_failure; exact F).
  split; [exact A|].
  eexists. split; [simpl; rewrite K, A; reflexivity|].
  split; [reflexivity|].
  intros i s Hs. cbn [workflowSteps resume without out_result out_thinking].
  rewrite nth_error_update, Hs. reflexivity.
Qed.

(** The model is down when the first step of a two-step plan runs: the step
    ends Completed, and the next run of the effect starts the second step. *)
Lemma model_error_marks_step_completed_witness :
  answer (Examples.unreachable (js "fetch failed"))
         {| call_step := Examples.step_A; call_files := [Examples.main_py];
            call_previous := [Examples.step_A; Examples.step_B] |}
  = Return {| out_result := js "Error executing step: fetch failed";
              out_thinking := [] |}
  /\ exists st,
      run [Render; Respond 0 (Examples.unreachable (js "fetch failed")); Render]
          Examples.planned = Some st
      /\ map status (workflowSteps st) = [COMPLETED; PROCESSING]
      /\ map result (workflowSteps st)
         = [Some (js "Error executing step: fetch failed"); None]
      /\ isExecuting (agentState st) = true.
Proof.
  split.
  - exact (proj1 (model_error_marks_step_completed
                    (Examples.unreachable (js "fetch failed"))
                    (effect Examples.planned) 0
                    {| call_step := Examples.step_A;
                       call_files := [Examples.main_py];
                       call_previous := [Examples.step_A; Examples.step_B] |}
                    (ErrorObject (js "fetch failed")) eq_refl eq_refl)).
  - eexists. split; [reflexivity|]. repeat split.
Defined.

(** C2 at the failing input.  The effect selects the first Pending step of
    the list; but marking it Processing replaces the list, which makes the
    effect run again while the call is awaited, and the effect then starts
    the next Pending step: after two runs of the effect on a plan of two
    steps both are Processing, with both calls awaited, and the second call
    was given a list in which the first step is not Completed. *)
Theorem second_step_starts_before_first_ends :
  (forall l i,
      findIndex is_pending l = Some i ->
      (exists s, nth_error l i = Some s /\ status s = PENDING)
      /\ forall j s, j < i -> nth_error l j = Some s -> status s <> PENDING)
  /\ (forall (st : State) (A B : WorkflowStep),
         workflowSteps st = [A; B] ->
         status A = PENDING -> status B = PENDING -> id A <> id B ->
         isExecuting (agentState st) = true -> effectDue st = true ->
         exists st2,
           run [Render; Render] st = Some st2
           /\ workflowSteps st2 = [set_processing A; set_processing B]
           /\ awaiting st2
              = awaiting st
                ++ [{| call_step := A; call_files := files st;
                       call_previous := [A; B] |};
                    {| call_step := B; call_files := files st;
                       call_previous := [set_processing A; B] |}]
           /\ isExecuting (agentState st2) = true).
Proof.
  split.
  - intros l i F. destruct (findIndex_first _ _ _ F) as [(s & Hs & Ps) Hb].
    split.
    + exists s. split; [exact Hs|]. unfold is_pending in Ps.
      destruct (status s); simpl in Ps; congruence.
    + intros j s' Hj Hs' E. specialize (Hb j s' Hj Hs').
      unfold is_pending in Hb. rewrite E in Hb. discriminate.
  - intros [fs ws [an ex cur] er aw due] [ia da sa ra ta] [ib db sb rb tb].
    cbn [workflowSteps status id agentState isExecuting effectDue files awaiting].
    intros -> -> -> D -> ->.
    assert (NAB : eqb ia ib = false).
    { destruct (eqb ia ib) eqn:E; [|reflexivity].
      apply eqb_eq in E. contradiction. }
    assert (NBA : eqb ib ia = false).
    { destruct (eqb ib ia) eqn:E; [|reflexivity].
      apply eqb_eq in E. congruence. }
    eexists. split.
    + cbn. rewrite !eqb_refl, NBA. cbn. reflexivity.
    + cbn. rewrite !eqb_refl, NAB. repeat split. now rewrite <- app_assoc.
Qed.

Lemma second_step_starts_before_first_ends_witness :
  exists st2,
    run [Render; Render] Examples.planned = Some st2
    /\ map status (workflowSteps st2) = [PROCESSING; PROCESSING]
    /\ length (awaiting st2) = 2.
Proof.
  destruct (proj2 second_step_starts_before_first_ends Examples.planned
              Examples.step_A Examples.step_B eq_refl eq_refl eq_refl
              ltac:(discriminate) eq_refl eq_refl)
    as (st2 & R & W & Aw & _).
  exists st2. split; [exact R|]. split.
  - rewrite W. reflexivity.
  - rewrite Aw. reflexivity.
Defined.

Lemma effect_halted (st : State) :
  halted st ->
  workflowSteps (effect st) = workflowSteps st
  /\ awaiting (effect st) = awaiting st
  /\ agentState (effect st) = agentState st.
Proof. intros Hh. unfold effect. rewrite Hh. cbn. auto. Qed.

Lemma resume_status (c : Call) (o : Completion StepOutput) (st : State)
  (i : nat) (s s' : WorkflowStep) :
  nth_error (workflowSteps st) i = Some s ->
  nth_error (workflowSteps (resume c o st)) i = Some s' ->
  status s = PENDING -> status s' <> PROCESSING.
Proof.
  intros Hs Hs' P.
  destruct o as [out|e]; cbn [resume workflowSteps] in Hs';
    rewrite nth_error_update, Hs in Hs'; cbn in Hs'; injection Hs' as <-;
    destruct (eqb (id s) (id (call_step c))); cbn; congruence.
Qed.

Lemma resume_halted (c : Call) (o : Completion StepOutput) (st : State) :
  halted st -> halted (resume c o st).
Proof. intros Hh. destruct o; cbn; [exact Hh|reflexivity]. Qed.

Lemma resume_awaiting (c : Call) (o : Completion StepOutput) (st : State) :
  awaiting (resume c o st) = awaiting st.
Proof. now destruct o. Qed.

Lemma fire_halted (e : Event) (st st' : State) :
  halted st -> fire e st = Some st' -> halted st' /\ starts_nothing st st'.
Proof.
  intros Hh F. destruct e as [|k client|k o]; cbn [fire] in F.
  - destruct (effectDue st); [|discriminate]. injection F as <-.
    destruct (effect_halted st Hh) as (W & A & G).
    unfold halted, starts_nothing. rewrite W, A, G. split; [exact Hh|].
    split; [|lia]. intros i s s' Hs Hs' P. congruence.
  - destruct (nth_error (awaiting st) k) as [c|]; [|discriminate].
    injection F as <-. split; [now apply resume_halted|]. split.
    + intros i s s' Hs Hs' P.
      exact (resume_status c _ (without k st) i s s' Hs Hs' P).
    + rewrite resume_awaiting. apply remove_nth_length.
  - destruct (nth_error (awaiting st) k) as [c|]; [|discriminate].
    injection F as <-. split; [now apply resume_halted|]. split.
    + intros i s s' Hs Hs' P.
      exact (resume_status c _ (without k st) i s s' Hs Hs' P).
    + rewrite resume_awaiting. apply remove_nth_length.
Qed.

Lemma run_halted (es : list Event) (st st' : State) :
  halted st -> run es st = Some st' -> halted st'.
Proof.
  revert st; induction es as [|e es IH]; intros st Hh; simpl.
  - now intros [= <-].
  - destruct (fire e st) as [st1|] eqn:F; [|discriminate].
    apply IH. now apply (fire_halted e st).
Qed.

(** C3.  When the promise of an awaited call is rejected, the loop marks
    the step of the call Failed and clears the executing flag; from then on,
    whatever happens in the run (the effect running again, other awaited
    calls settling either way), the flag stays cleared, no step goes from
    Pending to Processing and no call of the executor is added. *)
Theorem halt_on_failure :
  forall (st : State) (k : nat) (c : Call) (e : Thrown),
    nth_error (awaiting st) k = Some c ->
    exists st1,
      fire (Settle k (Throw e)) st = Some st1
      /\ (forall i s,
             nth_error (workflowSteps st) i = Some s ->
             nth_error (workflowSteps st1) i
             = Some (if eqb (id s) (id (call_step c)) then set_failed s else s))
      /\ halted st1
      /\ forall es st2,
           run es st1 = Some st2 ->
           halted st2
           /\ forall e' st3, fire e' st2 = Some st3 -> starts_nothing st2 st3.
Proof.
  intros st k c e K. eexists. split; [cbn [fire]; rewrite K; reflexivity|].
  split; [|split].
  - intros i s Hs. cbn [resume workflowSteps without].
    now rewrite nth_error_update, Hs.
  - reflexivity.
  - intros es st2 R.
    assert (H2 : halted st2) by (eapply run_halted; [|exact R]; reflexivity).
    split; [exact H2|]. intros e' st3 F. now apply (fire_halted e' st2 st3).
Qed.

(** The first step of a two-step plan is rejected while the second one is
    still Pending. *)
Lemma halt_on_failure_witness :
  exists st1,
    fire (Settle 0 (Throw (ErrorObject (js "rejected")))) (effect Examples.planned)
    = Some st1
    /\ map status (workflowSteps st1) = [FAILED; PENDING]
    /\ forall es st2,
         run es st1 = Some st2 ->
         halted st2
         /\ forall e' st3, fire e' st2 = Some st3 -> starts_nothing st2 st3.
Proof.
  destruct (halt_on_failure (effect Examples.planned) 0
              {| call_step := Examples.step_A;
                 call_files := [Examples.main_py];
                 call_previous := [Examples.step_A; Examples.step_B] |}
              (ErrorObject (js "rejected")) eq_refl)
    as (st1 & F & _ & _ & Rest).
  exists st1. split; [exact F|]. split; [|exact Rest].
  injection F as <-. reflexivity.
Defined.

(** X3.  No step re-enters Pending: along a run the step list keeps its
    length, and a step that is Pending after an event was Pending and the
    same before it. *)
Theorem no_step_reenters_pending :
  forall (e : Event) (st st' : State),
    fire e st = Some st' ->
    length (workflowSteps st') = length (workflowSteps st)
    /\ forall i s',
        nth_error (workflowSteps st') i = Some s' ->
        status s' = PENDING ->
        nth_error (workflowSteps st) i = Some s'.
Proof.
  assert (U : forall sid f l,
             (forall s, status (f s) <> PENDING) ->
             length (update sid f l) = length l
             /\ forall i s', nth_error (update sid f l) i = Some s' ->
                             status s' = PENDING ->
                             nth_error l i = Some s').
  { intros sid f l Hf. split; [apply length_map|].
    intros i s' Hs' P. rewrite nth_error_update in Hs'.
    destruct (nth_error l i) as [s|]; [|discriminate]. cbn in Hs'.
    injection Hs' as <-.
    destruct (eqb (id s) sid); [now apply Hf in P|reflexivity]. }
  assert (R : forall c o st0,
             length (workflowSteps (resume c o st0)) = length (workflowSteps st0)
             /\ forall i s', nth_error (workflowSteps (resume c o st0)) i = Some s' ->
                             status s' = PENDING ->
                             nth_error (workflowSteps st0) i = Some s').
  { intros c [out|err] st0; cbn [resume workflowSteps]; apply U;
      intros s; cbn; discriminate. }
  intros [|k client|k o] st st' F; cbn [fire] in F.
  - destruct (effectDue st); [|discriminate]. injection F as <-.
    unfold effect. destruct (negb _); [now split|].
    destruct (findIndex _ _); [|now split].
    destruct (nth_error _ _); [|now split].
    cbn [workflowSteps]. apply U. intros s; cbn; discriminate.
  - destruct (nth_error (awaiting st) k) as [c|]; [|discriminate].
    injection F as <-. apply (R c _ (without k st)).
  - destruct (nth_error (awaiting st) k) as [c|]; [|discriminate].
    injection F as <-. apply (R c _ (without k st)).
Qed.

(** After the first run of the effect on a two-step plan the second step is
    the same Pending step as before. *)
Lemma no_step_reenters_pending_witness :
  nth_error (workflowSteps Examples.planned) 1 = Some Examples.step_B.
Proof.
  apply (proj2 (no_step_reenters_pending Render Examples.planned
                  (effect Examples.planned) eq_refl) 1 Examples.step_B);
    reflexivity.
Defined.

End ExecutionLoop.

(** ** More facts about strings *)

Module TextFacts.

Import JsFacts.

Lemma split_not_nil (sep : char16) (s : jsstring) : split sep s <> [].
Proof.
  induction s as [|c s IH]; simpl; [discriminate|].
  destruct (N.eqb c sep); [discriminate|].
  destruct (split sep s); [contradiction|discriminate].
Qed.

Lemma join_split (sep : char16) (s : jsstring) :
  join [sep] (split sep s) = s.
Proof.
  induction s as [|c s IH]; simpl; [reflexivity|].
  destruct (N.eqb_spec c sep) as [->|].
  - pose proof (split_not_nil sep s) as Hn.
    destruct (split sep s) as [|seg rest] eqn:E; [contradiction|].
    change (join [sep] ([] :: seg :: rest))
      with ([] ++ [sep] ++ join [sep] (seg :: rest)).
    now rewrite IH.
  - destruct (split sep s) as [|seg rest] eqn:E.
    + now apply split_not_nil in E.
    + destruct rest as [|seg' rest]; simpl in *; now rewrite <- IH.
Qed.

Lemma split_free (sep : char16) (s : jsstring) :
  Forall (fun seg => ~ In sep seg) (split sep s).
Proof.
  induction s as [|c s IH]; simpl.
  - constructor; [tauto|constructor].
  - destruct (N.eqb_spec c sep) as [->|Hc].
    + constructor; [simpl; tauto|exact IH].
    + destruct (split sep s) as [|seg rest]; [repeat constructor; simpl; tauto|].
      inversion IH as [|? ? Hs Hr]; subst. constructor; [|exact Hr].
      simpl. intros [E|I]; [congruence|contradiction].
Qed.

Lemma split_free_id (sep : char16) (s : jsstring) :
  ~ In sep s -> split sep s = [s].
Proof.
  induction s as [|c s IH]; simpl; [reflexivity|]. intros Hn.
  destruct (N.eqb_spec c sep) as [->|]; [tauto|].
  rewrite IH by tauto. reflexivity.
Qed.



Lemma split_length (sep : char16) (s : jsstring) :
  length (split sep s) = S (count_occ N.eq_dec s sep).
Proof.
  induction s as [|c s IH]; simpl; [reflexivity|].
  destruct (N.eqb_spec c sep) as [->|Hc].
  - destruct (N.eq_dec sep sep); [|contradiction]. simpl. now rewrite IH.
  - destruct (N.eq_dec c sep); [contradiction|].
    pose proof (split_not_nil sep s) as Hn.
    destruct (split sep s); [contradiction|]. simpl in *. exact IH.
Qed.

Lemma existsb_sep (sep : char16) (s : jsstring) :
  existsb (N.eqb sep) s = true <-> In sep s.
Proof.
  rewrite existsb_exists. split.
  - intros (x & I & E). apply N.eqb_eq in E. now subst.
  - intros I. exists sep. split; [assumption|apply N.eqb_refl].
Qed.

Lemma split_pop_free (sep : char16) (s : jsstring) :
  ~ In sep s -> split_pop sep s = s.
Proof.
  destruct s as [|c s]; simpl; [reflexivity|]. intros Hn.
  destruct (N.eqb_spec c sep) as [->|]; [tauto|].
  destruct (existsb (N.eqb sep) s) eqn:E; [|reflexivity].
  apply existsb_sep in E. tauto.
Qed.

Lemma split_pop_suffix (sep : char16) (a x : jsstring) :
  ~ In sep x -> split_pop sep (a ++ sep :: x) = x.
Proof.
  intros Hn. induction a as [|c a IH]; simpl.
  - rewrite N.eqb_refl. now apply split_pop_free.
  - destruct (N.eqb c sep); [exact IH|].
    assert (E : existsb (N.eqb sep) (a ++ sep :: x) = true).
    { apply existsb_sep, in_or_app. right. now left. }
    now rewrite E.
Qed.

(** The extension of the classifier is the last element of the split. *)
Lemma split_pop_last (sep : char16) (s : jsstring) :
  split_pop sep s = last (split sep s) [].
Proof.
  induction s as [|c s IH]; simpl; [reflexivity|].
  pose proof (split_not_nil sep s) as Hn.
  destruct (N.eqb_spec c sep) as [->|Hc].
  - rewrite IH. destruct (split sep s); [contradiction|reflexivity].
  - destruct (existsb (N.eqb sep) s) eqn:E.
    + rewrite IH. apply existsb_sep in E.
      destruct (split sep s) as [|seg rest] eqn:S; [contradiction|].
      destruct rest as [|seg' rest]; [|reflexivity].
      exfalso. pose proof (join_split sep s) as J. rewrite S in J. simpl in J.
      pose proof (split_free sep s) as F. rewrite S in F.
      inversion F; subst. contradiction.
    + assert (Hs : ~ In sep s).
      { intros I. apply existsb_sep in I. congruence. }
      rewrite (split_free_id _ _ Hs). reflexivity.
Qed.

Lemma replace_prefix (pattern replacement rest : jsstring) :
  replace pattern replacement (pattern ++ rest) = replacement ++ rest.
Proof.
  destruct (pattern ++ rest) eqn:E; simpl; rewrite <- E, strip_prefix_app;
    reflexivity.
Qed.

Lemma endsWith_true (suffix s : jsstring) :
  endsWith suffix s = true <-> exists a, s = a ++ suffix.
Proof.
  unfold endsWith. rewrite startsWith_true. split.
  - intros [r E]. exists (rev r).
    rewrite <- (rev_involutive s), E, rev_app_distr, rev_involutive.
    reflexivity.
  - intros [a ->]. exists (rev a). now rewrite rev_app_distr.
Qed.

Lemma digits_are_digits (u : Decimal.uint) :
  Forall (fun c => (48 <= c <= 57)%N) (digits u).
Proof. induction u; simpl; constructor; try assumption; lia. Qed.

Lemma number_text_chars (z : Z) :
  Forall (fun c => c = 45%N \/ (48 <= c <= 57)%N) (number_text z).
Proof.
  unfold number_text. destruct (Z.to_int z) as [u|u].
  - eapply Forall_impl; [|apply digits_are_digits]. intros; now right.
  - constructor; [now left|].
    eapply Forall_impl; [|apply digits_are_digits]. intros; now right.
Qed.

Lemma number_text_no_dot (z : Z) : ~ In 46%N (number_text z).
Proof.
  intros I. pose proof (number_text_chars z) as F.
  rewrite Forall_forall in F. destruct (F _ I) as [E|E]; [discriminate|lia].
Qed.

Lemma number_text_ascii (z : Z) : forallb is_ascii (number_text z) = true.
Proof.
  apply forallb_forall. intros c I. pose proof (number_text_chars z) as F.
  rewrite Forall_forall in F. unfold is_ascii. apply N.ltb_lt.
  destruct (F _ I) as [E|E]; [subst|]; lia.
Qed.








(** The host of the examples lower-cases ASCII text as every host does. *)
Lemma reference_host_lawful : HostLaws ReferenceHost.host.
Proof. constructor. reflexivity. Qed.

End TextFacts.

(** ** Reports ([createDocxBlob]) *)

Module Reports.

Import FileUtils JsFacts TextFacts Spec.

Lemma line_of_paragraph (line : jsstring) : line_of (paragraph_of line) = line.
Proof.
  unfold paragraph_of.
  destruct (startsWith (js "# ") line) eqn:E1.
  { apply startsWith_true in E1 as [r ->]. now rewrite replace_prefix. }
  destruct (startsWith (js "## ") line) eqn:E2.
  { apply startsWith_true in E2 as [r ->]. now rewrite replace_prefix. }
  destruct (startsWith (js "### ") line) eqn:E3.
  { apply startsWith_true in E3 as [r ->]. now rewrite replace_prefix. }
  simpl. apply app_nil_r.
Qed.

(** X4.  A report keeps its text: the paragraphs handed to the document are
    one per line of the content (one more than its line feeds, so an empty
    content gives one empty paragraph), and putting the heading markers back
    in front of the headed paragraphs and joining the lines with line feeds
    gives the content back; a line is a heading only when it starts with
    one, two or three number signs followed by a space. *)
Theorem createDocxBlob_keeps_text :
  forall text : jsstring,
    join [LF] (map line_of (createDocxBlob text)) = text
    /\ length (createDocxBlob text) = S (count_occ N.eq_dec text LF)
    /\ forall p,
         In p (createDocxBlob text) ->
         match p with
         | Headed t h _ => In (line_of p) (split LF text)
         | Plain children _ =>
             exists line,
               children = [line] /\ In line (split LF text)
               /\ startsWith (js "# ") line = false
               /\ startsWith (js "## ") line = false
               /\ startsWith (js "### ") line = false
         end.
Proof.
  intros text. unfold createDocxBlob. split; [|split].
  - rewrite map_map.
    rewrite (map_ext _ (fun l => l) line_of_paragraph), map_id.
    apply join_split.
  - rewrite length_map. apply split_length.
  - intros p I. apply in_map_iff in I as (line & <- & I).
    pose proof (line_of_paragraph line) as L. unfold paragraph_of in *.
    destruct (startsWith (js "# ") line) eqn:E1; [now rewrite L|].
    destruct (startsWith (js "## ") line) eqn:E2; [now rewrite L|].
    destruct (startsWith (js "### ") line) eqn:E3; [now rewrite L|].
    exists line. repeat split; assumption.
Qed.

Lemma createDocxBlob_keeps_text_witness :
  In (Headed (js "Title") HEADING_1 {| before := Some 200%N; after := 100%N |})
     (createDocxBlob (js "# Title" ++ [LF] ++ js "body"))
  /\ In (js "# Title") (split LF (js "# Title" ++ [LF] ++ js "body")).
Proof.
  assert (I : In (Headed (js "Title") HEADING_1
                    {| before := Some 200%N; after := 100%N |})
                 (createDocxBlob (js "# Title" ++ [LF] ++ js "body")))
    by (left; reflexivity).
  split; [exact I|].
  exact (proj2 (proj2 (createDocxBlob_keeps_text
                         (js "# Title" ++ [LF] ++ js "body"))) _ I).
Defined.

End Reports.

(** ** The files of a prompt ([getFileContent]) *)

Module PromptFiles.

Import GeminiService JsFacts TextFacts Spec.

Lemma getFileContent_app (l1 l2 : list UploadedFile) :
  getFileContent (l1 ++ l2) = getFileContent l1 ++ getFileContent l2.
Proof. unfold getFileContent. now rewrite map_app, concat_app. Qed.

Lemma getFileContent_cons (f : UploadedFile) (l : list UploadedFile) :
  getFileContent (f :: l) = file_entry f ++ getFileContent l.
Proof. reflexivity. Qed.


Lemma data_uri_mime_unfold (s : jsstring) :
  data_uri_mime s
  = let further :=
      match s with
      | [] => None
      | c :: s' =>
          if is_line_terminator c then None
          else match data_uri_mime s' with
               | Some m => Some (c :: m)
               | None => None
               end
      end in
    match strip_prefix base64_marker s with
    | Some d => if no_line_terminator d then Some [] else further
    | None => further
    end.
Proof. destruct s; reflexivity. Qed.


Lemma data_uri_mime_found (mime data : jsstring) :
  leftmost base64_marker mime (mime ++ base64_marker ++ data) ->
  no_line_terminator mime = true -> no_line_terminator data = true ->
  data_uri_mime (mime ++ base64_marker ++ data) = Some mime.
Proof.
  intros Lm Hm Hd. induction mime as [|c mime IH];
    rewrite data_uri_mime_unfold; cbv zeta.
  - cbn [app]. rewrite strip_prefix_app, Hd. reflexivity.
  - cbn [app]. simpl in Hm. apply andb_true_iff in Hm as [Hc Hm].
    destruct (strip_prefix base64_marker (c :: mime ++ base64_marker ++ data))
      as [d|] eqn:E.
    + apply strip_prefix_Some in E. specialize (Lm [] d E). simpl in Lm. lia.
    + apply negb_true_iff in Hc. rewrite Hc, IH; [reflexivity| |exact Hm].
      intros a b Hab. pose proof (Lm (c :: a) b) as L'.
      cbn [app length] in L'. rewrite <- Hab in L'. specialize (L' eq_refl).
      lia.
Qed.



(** X6.  The payload of a data URL stays out of the prompt.  For a file
    whose content is [data:], a media type, [;base64,] and a payload (the
    marker being the first one of the text, neither part holding a line
    terminator), the prompt holds one line with the name of the file and
    the media type, whatever the payload is. *)
Theorem data_url_payload_not_in_prompt :
  forall (l1 : list UploadedFile) (f : UploadedFile) (l2 : list UploadedFile)
         (mime data : jsstring),
    content f = Text (js "data:" ++ mime ++ base64_marker ++ data) ->
    leftmost base64_marker mime (mime ++ base64_marker ++ data) ->
    no_line_terminator mime = true -> no_line_terminator data = true ->
    getFileContent (l1 ++ f :: l2)
    = getFileContent l1
      ++ (NL ++ js "[File Attachment: " ++ name f ++ js " (" ++ mime
          ++ js ") - Binary content not displayable]" ++ NL)
      ++ getFileContent l2.
Proof.
  intros l1 f l2 mime data C Lm Hm Hd.
  rewrite getFileContent_app, getFileContent_cons. f_equal. f_equal.
  unfold file_entry. rewrite C.
  change (js "data:" ++ mime ++ base64_marker ++ data)
    with (100%N :: js "ata:" ++ mime ++ base64_marker ++ data).
  cbv iota.
  change (100%N :: js "ata:" ++ mime ++ base64_marker ++ data)
    with (js "data:" ++ mime ++ base64_marker ++ data).
  rewrite strip_prefix_app.
  now rewrite (data_uri_mime_found mime data Lm Hm Hd).
Qed.

Lemma data_url_payload_not_in_prompt_witness :
  getFileContent
    [{| file_id := js "f3"; name := js "logo.png";
        content := Text (js "data:image/png;base64,iVBORw0KGgo=");
        category := image; size := 8%N |}]
  = NL ++ js "[File Attachment: logo.png (image/png) - Binary content not displayable]"
    ++ NL.
Proof.
  rewrite <- (app_nil_r (NL ++ _ ++ NL)).
  apply (data_url_payload_not_in_prompt []
           {| file_id := js "f3"; name := js "logo.png";
              content := Text (js "data:image/png;base64,iVBORw0KGgo=");
              category := image; size := 8%N |}
           [] (js "image/png") (js "iVBORw0KGgo=") eq_refl).
  - apply indexOf_leftmost. reflexivity.
  - reflexivity.
  - reflexivity.
Defined.

End PromptFiles.

(** ** Code blocks ([extractCode]) *)

Module CodeBlocks.

Import WorkflowList JsFacts TextFacts Spec.

Lemma span_word_spec (s w r : jsstring) :
  span_word s = (w, r) -> s = w ++ r /\ forallb is_word w = true.
Proof.
  revert w r; induction s as [|c s IH]; intros w r; simpl.
  - intros [= <- <-]. now split.
  - destruct (is_word c) eqn:E.
    + destruct (span_word s) as [w' r'] eqn:S. intros [= <- <-].
      destruct (IH w' r' eq_refl) as [-> F]. simpl. now rewrite E, F.
    + intros [= <- <-]. now split.
Qed.

Lemma leftmost_free (tag body rest : jsstring) :
  tag <> [] -> leftmost tag body (body ++ tag ++ rest) -> ~ occurs tag body.
Proof.
  intros Ht Lm (a & b & E).
  specialize (Lm a (b ++ tag ++ rest)).
  rewrite E, <- !app_assoc in Lm. specialize (Lm eq_refl).
  rewrite !length_app in Lm. destruct tag; [contradiction|simpl in Lm; lia].
Qed.

Lemma code_here_sound (s body rest : jsstring) (lang : option jsstring) :
  code_here s = Some ((lang, body), rest) ->
  exists tag,
    s = fence ++ tag ++ [LF] ++ body ++ fence ++ rest
    /\ forallb is_word tag = true
    /\ lang = match tag with [] => None | _ => Some tag end
    /\ ~ occurs fence body.
Proof.
  unfold code_here.
  destruct (strip_prefix fence s) as [r|] eqn:P; [|discriminate].
  apply strip_prefix_Some in P.
  destruct (span_word r) as [w r'] eqn:S.
  apply span_word_spec in S as [-> F].
  destruct r' as [|c r'']; [discriminate|].
  destruct (N.eqb_spec c LF) as [->|]; [|discriminate].
  destruct (lazy_until fence r'') as [[b rest']|] eqn:Lz; [|discriminate].
  intros [= <- <- <-]. exists w.
  pose proof (lazy_until_sound _ _ _ _ Lz) as E.
  pose proof (lazy_until_is_leftmost _ _ _ _ Lz) as Lm.
  subst r''. repeat split; try assumption.
  apply (leftmost_free fence b rest'); [discriminate|exact Lm].
Qed.

(** X7.  What code extraction returns.  When a code block is detected, the
    content holds a fence, a run of word characters (the tag), a line feed,
    the extracted code and a fence; the code holds no fence; the language is
    the tag, or [txt] when the tag is empty, and never empty.  A content
    without a fence, or without a line feed, has no code block. *)
Theorem extractCode_sound :
  forall markdown : jsstring,
    (forall cd,
        extractCode markdown = Some cd ->
        (exists pre tag post,
            markdown = pre ++ fence ++ tag ++ [LF] ++ code cd ++ fence ++ post
            /\ forallb is_word tag = true
            /\ language cd = if truthy tag then tag else js "txt")
        /\ language cd <> []
        /\ ~ occurs fence (code cd))
    /\ (~ occurs fence markdown -> extractCode markdown = None)
    /\ (~ In LF markdown -> extractCode markdown = None).
Proof.
  intros markdown.
  assert (S : forall cd,
             extractCode markdown = Some cd ->
             (exists pre tag post,
                 markdown = pre ++ fence ++ tag ++ [LF] ++ code cd ++ fence ++ post
                 /\ forallb is_word tag = true
                 /\ language cd = if truthy tag then tag else js "txt")
             /\ language cd <> []
             /\ ~ occurs fence (code cd)).
  { intros cd. unfold extractCode.
    destruct (search code_here markdown) as [[[pre [lang body]] post]|] eqn:E;
      [|discriminate].
    intros [= <-]. destruct (search_sound _ _ E) as (s' & -> & H).
    apply code_here_sound in H as (tag & -> & F & -> & Hn).
    cbn [language code]. split; [|split; [|exact Hn]].
    - exists pre, tag, post. repeat split; [assumption|]. now destruct tag.
    - destruct tag; discriminate. }
  split; [exact S|]. split.
  - intros Hn. destruct (extractCode markdown) as [cd|] eqn:E; [|reflexivity].
    exfalso. apply Hn. destruct (S cd eq_refl) as ((pre & tag & post & -> & _) & _).
    now exists pre, (tag ++ [LF] ++ code cd ++ fence ++ post).
  - intros Hn. destruct (extractCode markdown) as [cd|] eqn:E; [|reflexivity].
    exfalso. apply Hn. destruct (S cd eq_refl) as ((pre & tag & post & -> & _) & _).
    apply in_or_app. right. apply in_or_app. right. apply in_or_app. right.
    now left.
Qed.

Lemma extractCode_sound_witness :
  extractCode (js "Use ```print(1)``` on one line.") = None.
Proof.
  apply (proj2 (proj2 (extractCode_sound (js "Use ```print(1)``` on one line.")))).
  intros I. vm_compute in I. intuition discriminate.
Defined.

End CodeBlocks.

(** ** Which block is extracted *)

Module CodeDetection.

Import WorkflowList GeminiService JsFacts TextFacts Spec.

Lemma span_word_run (tag r : jsstring) (c : char16) :
  forallb is_word tag = true -> is_word c = false ->
  span_word (tag ++ c :: r) = (tag, c :: r).
Proof.
  intros F Hc. induction tag as [|x tag IH]; simpl.
  - now rewrite Hc.
  - simpl in F. apply andb_true_iff in F as [Hx F].
    now rewrite Hx, (IH F).
Qed.

Lemma code_here_complete (tag body rest : jsstring) :
  forallb is_word tag = true ->
  code_here (fence ++ tag ++ [LF] ++ body ++ fence ++ rest) <> None.
Proof.
  intros F. unfold code_here. rewrite strip_prefix_app.
  change (tag ++ [LF] ++ body ++ fence ++ rest)
    with (tag ++ LF :: body ++ fence ++ rest).
  rewrite (span_word_run tag _ LF F eq_refl). rewrite N.eqb_refl.
  pose proof (lazy_until_complete fence body rest) as C.
  destruct (lazy_until fence (body ++ fence ++ rest)) as [[b r]|];
    [discriminate|contradiction].
Qed.

(** The match of the pattern is the first fenced block of the text. *)
Lemma search_is_first_block (s pre rest : jsstring)
  (m : option jsstring * jsstring) :
  search code_here s = Some (pre, m, rest) -> no_block_before pre s.
Proof.
  intros S a (tag & body & r & E & F).
  destruct (le_lt_dec (length pre) (length a)) as [L|L]; [exact L|exfalso].
  destruct (search_sound _ _ S) as (s' & Es & _).
  assert (Ea : a ++ (fence ++ tag ++ [LF] ++ body ++ fence ++ r) = pre ++ s')
    by (rewrite <- Es; exact (eq_sym E)).
  destruct (app_split Ea ltac:(lia)) as (x & -> & Ex).
  assert (Hx : x <> []).
  { intros ->. rewrite app_nil_r in L. lia. }
  rewrite <- app_assoc in Es.
  pose proof (search_before S a x s' Es eq_refl Hx) as Nn.
  rewrite <- Ex in Nn. now apply (code_here_complete tag body r F).
Qed.

Lemma search_first_block (pre post : jsstring) :
  no_block_before pre (pre ++ python_block ++ post) ->
  search code_here (pre ++ python_block ++ post)
  = Some (pre, (Some (js "python"), js "print(1)" ++ NL), post).
Proof.
  intros Nb.
  apply search_first; [apply OutputClassification.code_here_python_block|].
  intros p1 p2 -> Hne.
  destruct (code_here (p2 ++ python_block ++ post)) as [[[lang body] rest]|] eqn:E;
    [exfalso|reflexivity].
  destruct (CodeBlocks.code_here_sound _ _ _ _ E) as (tag & Es & F & _).
  assert (B : fenced_block_at p1 ((p1 ++ p2) ++ python_block ++ post)).
  { exists tag, body, rest. split; [|exact F].
    rewrite <- app_assoc. now rewrite Es. }
  specialize (Nb p1 B). rewrite length_app in Nb.
  destruct p2; [contradiction|simpl in Nb; lia].
Qed.

(** C9, amended.  For a step whose content holds the fenced block
    [python_block], no fenced block starting earlier in the content (text
    between backticks that opens no block, as an inline [```x```], may come
    before), code extraction returns the language [python] and the payload
    [print(1)] followed by the line feed that precedes the closing fence,
    and the step is not classified as a report.  In general a detected
    code block suppresses the report classification, whatever the length of
    the content, the description and the status of the step. *)
Theorem extractCode_python_block :
  (forall (H : Host) (step : WorkflowStep) (pre post : jsstring),
      result step = Some (pre ++ python_block ++ post) ->
      no_block_before pre (pre ++ python_block ++ post) ->
      codeData step
      = Some {| language := js "python"; code := js "print(1)" ++ NL |}
      /\ isPotentialReport step = false)
  /\ (forall (H : Host) (step : WorkflowStep),
         codeData step <> None -> isPotentialReport step = false).
Proof.
  split; [|intros H step; apply OutputClassification.code_block_suppresses_report].
  intros H step pre post R Nb.
  assert (C : codeData step
              = Some {| language := js "python"; code := js "print(1)" ++ NL |}).
  { unfold codeData. rewrite R.
    assert (T : truthy (pre ++ python_block ++ post) = true)
      by now destruct pre.
    rewrite T. unfold extractCode. now rewrite (search_first_block _ _ Nb). }
  split; [exact C|].
  apply OutputClassification.code_block_suppresses_report. now rewrite C.
Qed.

(** A completed step whose description asks for a report and whose content
    holds inline backticks before the block. *)
Lemma extractCode_python_block_witness :
  let step :=
    {| id := js "s3"; description := js "Write the final report";
       status := COMPLETED;
       result := Some (js "Use ```x``` inline, then:" ++ NL ++ python_block);
       thinking := None |} in
  codeData step
  = Some {| language := js "python"; code := js "print(1)" ++ NL |}
  /\ @isPotentialReport ReferenceHost.host step = false.
Proof.
  intros step.
  apply (proj1 extractCode_python_block ReferenceHost.host step
           (js "Use ```x``` inline, then:" ++ NL) []).
  - reflexivity.
  - apply (search_is_first_block _ _ []
             (Some (js "python"), js "print(1)" ++ NL)).
    reflexivity.
Defined.

End CodeDetection.

(** ** Downloads ([handleDownloadCode], [handleDownloadDocx]) *)

Module Downloads.

Import FileUtils WorkflowList JsFacts TextFacts Spec.

Lemma own_In (key v : jsstring) (o : list (jsstring * jsstring)) :
  own key o = Some v -> In v (map snd o).
Proof.
  induction o as [|[k x] o IH]; simpl; [discriminate|].
  destruct (eqb k key); [intros [= ->]; now left|]. intros E. right. now apply IH.
Qed.

Lemma extensions_plain (key ext : jsstring) :
  own key extensions = Some ext -> plain_code_extension ext = true.
Proof.
  intros E. apply own_In in E.
  assert (F : forallb plain_code_extension (map snd extensions) = true)
    by reflexivity.
  rewrite forallb_forall in F. now apply F.
Qed.

Section WithHost.

Context {H : Host} {L : HostLaws H}.

Lemma extension_of_download (stem ext : jsstring) :
  ~ In DOT ext -> forallb is_ascii ext = true -> map ascii_lower ext = ext ->
  extension (stem ++ js "." ++ ext) = ext.
Proof.
  intros Hd Ha Hl. unfold extension.
  change (stem ++ js "." ++ ext) with (stem ++ DOT :: ext).
  rewrite split_pop_suffix by assumption.
  now rewrite toLowerCase_ascii.
Qed.

Lemma plain_extension_is_code (stem ext type : jsstring) :
  plain_code_extension ext = true ->
  getFileCategory (stem ++ js "." ++ ext) type = Types.code.
Proof.
  unfold plain_code_extension. intros P.
  apply andb_true_iff in P as [P _]. apply andb_true_iff in P as [P Hl].
  apply andb_true_iff in P as [P Ha]. apply andb_true_iff in P as [Hc Hd].
  apply eqb_eq in Hl.
  assert (Hn : ~ In DOT ext).
  { intros I. apply existsb_sep in I. rewrite I in Hd. discriminate. }
  unfold getFileCategory. rewrite (extension_of_download stem ext Hn Ha Hl).
  now rewrite Hc.
Qed.

End WithHost.

(** X8.  A downloaded code file comes back as code.  When the lower-cased
    language of a code block is a key of the extension table, the file is
    named [agent_code_], the time stamp, a dot and the extension of the
    table, it holds the code as it is, and [getFileCategory] gives [code]
    for that name whatever the media type.  When the language is neither a
    key of the table nor a name inherited from [Object.prototype], the
    extension is [txt] and the name, with the media type of the download,
    is classified [document]. *)
Theorem code_download_comes_back_as_code :
  forall (H : Host) (L : HostLaws H) (inherited : jsstring -> jsstring)
         (now : Z) (content language : jsstring),
    let d := handleDownloadCode inherited now content language in
    payload d = content
    /\ (forall ext,
           own (toLowerCase language) extensions = Some ext ->
           filename d = js "agent_code_" ++ number_text now ++ js "." ++ ext
           /\ forall type, getFileCategory (filename d) type = Types.code)
    /\ (own (toLowerCase language) extensions = None ->
        array_includes object_prototype_names (toLowerCase language) = false ->
        filename d = js "agent_code_" ++ number_text now ++ js ".txt"
        /\ getFileCategory (filename d) (mimeType d) = document).
Proof.
  intros H L inherited now content language d. split; [reflexivity|]. split.
  - intros ext E. pose proof (extensions_plain _ _ E) as P.
    assert (T : truthy ext = true)
      by (unfold plain_code_extension in P; now apply andb_true_iff in P).
    assert (F : filename d
                = js "agent_code_" ++ number_text now ++ js "." ++ ext).
    { unfold d, handleDownloadCode, extension_for. cbn [filename].
      now rewrite E, T. }
    split; [exact F|]. intros type. rewrite F.
    rewrite (app_assoc (js "agent_code_")).
    now apply plain_extension_is_code.
  - intros E I.
    assert (F : filename d
                = js "agent_code_" ++ number_text now ++ js ".txt").
    { unfold d, handleDownloadCode, extension_for. cbn [filename].
      now rewrite E, I. }
    split; [exact F|]. rewrite F. unfold getFileCategory.
    change (js "agent_code_" ++ number_text now ++ js ".txt")
      with (js "agent_code_" ++ number_text now ++ js "." ++ js "txt").
    rewrite (app_assoc (js "agent_code_")).
    rewrite (extension_of_download _ (js "txt")); try reflexivity.
    simpl; intuition discriminate.
Qed.

Lemma code_download_comes_back_as_code_witness :
  filename (@handleDownloadCode ReferenceHost.host (fun key => key)
              1762113600000%Z (js "print(1)") (js "Python"))
  = js "agent_code_1762113600000.py"
  /\ @getFileCategory ReferenceHost.host (js "agent_code_1762113600000.py")
       (js "application/octet-stream") = Types.code.
Proof.
  destruct (code_download_comes_back_as_code ReferenceHost.host
              reference_host_lawful (fun key => key)
              1762113600000%Z (js "print(1)") (js "Python"))
    as (_ & Hk & _).
  destruct (Hk (js "py") eq_refl) as [F C]. split; [exact F|].
  exact (C (js "application/octet-stream")).
Defined.

(** X9.  A downloaded report comes back as a document.  The report is named
    [agent_report_], the time stamp and [.docx]; with the media type of the
    download, [getFileCategory] gives [document] for that name and
    [readFileContent] takes the DOCX branch. *)
Theorem report_download_comes_back_as_document :
  forall (H : Host) (L : HostLaws H) (now : Z) (content : jsstring),
    let d := handleDownloadDocx now content in
    filename d = js "agent_report_" ++ number_text now ++ js ".docx"
    /\ getFileCategory (filename d) (mimeType d) = document
    /\ reader (filename d) (mimeType d) = Mammoth.
Proof.
  intros H L now content d. split; [reflexivity|]. split.
  - unfold d, handleDownloadDocx, getFileCategory. cbn [filename mimeType].
    change (js "agent_report_" ++ number_text now ++ js ".docx")
      with (js "agent_report_" ++ number_text now ++ js "." ++ js "docx").
    rewrite (app_assoc (js "agent_report_")).
    rewrite (extension_of_download _ (js "docx")); try reflexivity.
    simpl; intuition discriminate.
  - unfold d, handleDownloadDocx, reader. cbn [filename mimeType].
    assert (A : forallb is_ascii
                  (js "agent_report_" ++ number_text now ++ js ".docx") = true).
    { rewrite !forallb_app, number_text_ascii. reflexivity. }
    rewrite (toLowerCase_ascii _ A), !map_app.
    assert (E : endsWith (js ".docx")
                  (map ascii_lower (js "agent_report_")
                   ++ map ascii_lower (number_text now)
                   ++ map ascii_lower (js ".docx")) = true).
    { apply endsWith_true. eexists. rewrite app_assoc. reflexivity. }
    now rewrite E.
Qed.

Lemma report_download_comes_back_as_document_witness :
  @reader ReferenceHost.host (js "agent_report_1762113600000.docx")
     docx_mime = Mammoth.
Proof.
  exact (proj2 (proj2 (report_download_comes_back_as_document
                         ReferenceHost.host reference_host_lawful
                         1762113600000%Z (js "# Title")))).
Defined.

End Downloads.

(** ** The thinking section ([getThinkingPreview], [hasThinking]) *)

Module ThinkingSection.

Import GeminiService WorkflowList App JsFacts TextFacts Spec.








End ThinkingSection.

(** ** Runs of the execution loop *)

Module Runs.

Import GeminiService App JsFacts TextFacts Spec.

Lemma update_other (sid : jsstring) (f : WorkflowStep -> WorkflowStep)
  (l : list WorkflowStep) :
  ~ In sid (map id l) -> update sid f l = l.
Proof.
  induction l as [|x l IH]; simpl; [reflexivity|]. intros Hn.
  destruct (eqb (id x) sid) eqn:E.
  - apply eqb_eq in E. tauto.
  - f_equal. apply IH. tauto.
Qed.

Lemma update_unique (f : WorkflowStep -> WorkflowStep)
  (l1 : list WorkflowStep) (s : WorkflowStep) (l2 : list WorkflowStep) :
  NoDup (map id (l1 ++ s :: l2)) ->
  update (id s) f (l1 ++ s :: l2) = l1 ++ f s :: l2.
Proof.
  intros Hd. rewrite map_app in Hd. cbn [map] in Hd.
  pose proof (NoDup_remove_2 _ _ _ Hd) as Hn.
  unfold update. rewrite map_app. cbn [map]. rewrite eqb_refl.
  fold (update (id s) f l1). fold (update (id s) f l2).
  rewrite !update_other; [reflexivity| |]; intros I; apply Hn, in_or_app; tauto.
Qed.

Lemma findIndex_app (p : WorkflowStep -> bool) (l1 : list WorkflowStep)
  (s : WorkflowStep) (l2 : list WorkflowStep) :
  filter p l1 = [] -> p s = true ->
  findIndex p (l1 ++ s :: l2) = Some (length l1).
Proof.
  intros F Ps. induction l1 as [|x l1 IH]; simpl.
  - now rewrite Ps.
  - simpl in F. destruct (p x); [discriminate|]. now rewrite (IH F).
Qed.

Lemma findIndex_None (p : WorkflowStep -> bool) (l : list WorkflowStep) :
  filter p l = [] -> findIndex p l = None.
Proof.
  induction l as [|x l IH]; simpl; [reflexivity|].
  destruct (p x); [discriminate|]. intros F. now rewrite (IH F).
Qed.

(** The first element a filter keeps splits the list. *)
Lemma filter_first (p : WorkflowStep -> bool) (l : list WorkflowStep)
  (s : WorkflowStep) (rest : list WorkflowStep) :
  filter p l = s :: rest ->
  exists l1 l2,
    l = l1 ++ s :: l2 /\ filter p l1 = [] /\ p s = true /\ filter p l2 = rest.
Proof.
  induction l as [|x l IH]; simpl; [discriminate|].
  destruct (p x) eqn:Px.
  - intros [= -> <-]. now exists [], l.
  - intros F. destruct (IH F) as (l1 & l2 & -> & F1 & Ps & F2).
    exists (x :: l1), l2. simpl. rewrite Px. auto.
Qed.

Lemma launched_settled (l : list WorkflowStep) :
  filter is_pending l = [] -> launched l = l.
Proof.
  induction l as [|x l IH]; simpl; [reflexivity|].
  destruct (is_pending x); [discriminate|]. intros F. now rewrite (IH F).
Qed.

Lemma launched_app (l1 l2 : list WorkflowStep) :
  launched (l1 ++ l2) = launched l1 ++ launched l2.
Proof. apply map_app. Qed.

Lemma effect_starts_first (st : State) (l1 : list WorkflowStep)
  (s : WorkflowStep) (l2 : list WorkflowStep) :
  isExecuting (agentState st) = true ->
  workflowSteps st = l1 ++ s :: l2 ->
  filter is_pending l1 = [] -> is_pending s = true ->
  NoDup (map id (workflowSteps st)) ->
  effect st
  = {| files := files st;
       workflowSteps := l1 ++ set_processing s :: l2;
       agentState := {| isAnalyzing := isAnalyzing (agentState st);
                        isExecuting := true;
                        currentStepId := Some (id s) |};
       error := error st;
       awaiting := awaiting st
                   ++ [{| call_step := s; call_files := files st;
                          call_previous := l1 ++ s :: l2 |}];
       effectDue := true |}.
Proof.
  intros X W F Ps Hd. unfold effect. rewrite X, W. cbn [negb].
  rewrite (findIndex_app _ _ _ _ F Ps).
  rewrite nth_error_app2, Nat.sub_diag by lia. cbn [nth_error].
  rewrite W in Hd. now rewrite (update_unique _ _ _ _ Hd).
Qed.

Lemma no_history (l : list WorkflowStep) :
  (forall s, In s l -> status s <> COMPLETED) ->
  contextSection l = js "No previous steps executed yet.".
Proof.
  intros Hn. unfold contextSection, historyContext.
  assert (E : filter in_history l = []).
  { induction l as [|x l IH]; simpl; [reflexivity|].
    unfold in_history at 1.
    destruct (status x) eqn:S; simpl;
      try (apply IH; intros s I; apply Hn; now right).
    exfalso. apply (Hn x); [now left|exact S]. }
  now rewrite E.
Qed.

(** X12.  Every Pending step is started at once.  In a state that
    executes, with the effect due and distinct step identifiers, one run of
    the effect per Pending step and one more, with no call settling in
    between, start every Pending step in plan order: each becomes
    Processing, each gets its call, the other steps are untouched, and the
    last run clears the executing flag.  A call sees Completed steps only
    if they were Completed before; so when no step was Completed, every
    call is given the context [No previous steps executed yet.]. *)
Theorem effect_starts_every_pending_step :
  forall st : State,
    isExecuting (agentState st) = true ->
    effectDue st = true ->
    NoDup (map id (workflowSteps st)) ->
    exists st' calls,
      run (repeat Render (S (pending_count (workflowSteps st)))) st = Some st'
      /\ workflowSteps st' = launched (workflowSteps st)
      /\ awaiting st' = awaiting st ++ calls
      /\ map call_step calls = filter is_pending (workflowSteps st)
      /\ Forall (fun c => call_files c = files st) calls
      /\ (forall c s,
             In c calls -> In s (call_previous c) -> status s = COMPLETED ->
             In s (workflowSteps st))
      /\ ((forall s, In s (workflowSteps st) -> status s <> COMPLETED) ->
          Forall without_context calls)
      /\ isExecuting (agentState st') = false
      /\ currentStepId (agentState st') = None.
Proof.
  assert (Core : forall k st,
             pending_count (workflowSteps st) = k ->
             isExecuting (agentState st) = true ->
             effectDue st = true ->
             NoDup (map id (workflowSteps st)) ->
             exists st' calls,
               run (repeat Render (S k)) st = Some st'
               /\ workflowSteps st' = launched (workflowSteps st)
               /\ awaiting st' = awaiting st ++ calls
               /\ map call_step calls = filter is_pending (workflowSteps st)
               /\ Forall (fun c => call_files c = files st) calls
               /\ (forall c s,
                      In c calls -> In s (call_previous c) ->
                      status s = COMPLETED -> In s (workflowSteps st))
               /\ isExecuting (agentState st') = false
               /\ currentStepId (agentState st') = None).
  { induction k as [|k IH]; intros st K X Due Hd; unfold pending_count in K.
    - apply length_zero_iff_nil in K.
      exists (effect st), []. cbn [repeat run fire]. rewrite Due.
      unfold effect. rewrite X, (findIndex_None _ _ K). cbn.
      rewrite (launched_settled _ K), K, app_nil_r. repeat split; try constructor.
      intros c s [].
    - destruct (filter is_pending (workflowSteps st)) as [|s rest] eqn:F;
        [discriminate|].
      injection K as K.
      destruct (filter_first _ _ _ _ F) as (l1 & l2 & W & F1 & Ps & F2).
      pose proof (effect_starts_first st l1 s l2 X W F1 Ps Hd) as E.
      assert (Np : is_pending (set_processing s) = false) by reflexivity.
      assert (K1 : pending_count (workflowSteps (effect st)) = k).
      { rewrite E. cbn [workflowSteps]. unfold pending_count.
        rewrite filter_app. cbn [filter]. rewrite Np, F1, F2. exact K. }
      assert (Hd1 : NoDup (map id (workflowSteps (effect st)))).
      { rewrite E. cbn [workflowSteps]. rewrite W in Hd.
        rewrite map_app in *. exact Hd. }
      destruct (IH (effect st) K1 ltac:(now rewrite E) ltac:(now rewrite E) Hd1)
        as (st' & calls & R & Wl & Aw & Cs & Cf & Cp & Xf & Cur).
      exists st', ({| call_step := s; call_files := files st;
                      call_previous := l1 ++ s :: l2 |} :: calls).
      split; [|split; [|split; [|split; [|split; [|split; [|split]]]]]].
      + change (repeat Render (S (S k))) with (Render :: repeat Render (S k)).
        cbn [run fire]. now rewrite Due.
      + rewrite Wl, E, W. cbn [workflowSteps]. rewrite !launched_app.
        cbn [launched map]. now rewrite Np, Ps.
      + rewrite Aw, E. cbn [awaiting]. now rewrite <- app_assoc.
      + cbn [map call_step]. rewrite Cs, E. cbn [workflowSteps].
        rewrite filter_app. cbn [filter]. now rewrite Np, F1, F2.
      + constructor; [reflexivity|]. rewrite E in Cf. exact Cf.
      + intros c x [<-|I] Ix Sx; cbn [call_previous] in *.
        * now rewrite W.
        * specialize (Cp c x I Ix Sx). rewrite E in Cp.
          cbn [workflowSteps] in Cp. rewrite W.
          apply in_app_or in Cp as [Cp|[Cp|Cp]]; apply in_or_app.
          -- now left.
          -- subst x. discriminate.
          -- right. now right.
      + exact Xf.
      + exact Cur. }
  intros st X Due Hd.
  destruct (Core _ st eq_refl X Due Hd)
    as (st' & calls & R & Wl & Aw & Cs & Cf & Cp & Xf & Cur).
  exists st', calls. repeat split; try assumption.
  intros Hn. apply Forall_forall. intros c I. apply no_history.
  intros s Is Ss. apply (Hn s); [|exact Ss]. now apply (Cp c).
Qed.

Lemma effect_starts_every_pending_step_witness :
  exists st' calls,
    run [Render; Render; Render] Examples.planned = Some st'
    /\ map status (workflowSteps st') = [PROCESSING; PROCESSING]
    /\ awaiting st' = calls
    /\ Forall without_context calls.
Proof.
  destruct (effect_starts_every_pending_step Examples.planned eq_refl eq_refl)
    as (st' & calls & R & Wl & Aw & _ & _ & _ & Ctx & _).
  - repeat constructor; simpl; intuition discriminate.
  - exists st', calls. split; [exact R|]. split; [now rewrite Wl|].
    split; [exact Aw|]. apply Ctx.
    intros s [<-|[<-|[]]]; discriminate.
Defined.

Lemma update_keeps (sid : jsstring) (f : WorkflowStep -> WorkflowStep)
  (l : list WorkflowStep) :
  (forall s, id (f s) = id s /\ description (f s) = description s) ->
  map id (update sid f l) = map id l
  /\ map description (update sid f l) = map description l.
Proof.
  intros Hf. induction l as [|x l [IH1 IH2]]; simpl; [now split|].
  rewrite IH1, IH2. destruct (eqb (id x) sid); [|now split].
  destruct (Hf x) as [-> ->]. now split.
Qed.

Lemma resume_keeps (c : Call) (o : Completion StepOutput) (st : State) :
  map id (workflowSteps (resume c o st)) = map id (workflowSteps st)
  /\ map description (workflowSteps (resume c o st))
     = map description (workflowSteps st)
  /\ files (resume c o st) = files st
  /\ error (resume c o st) = error st.
Proof.
  destruct o as [out|e]; cbn [resume workflowSteps files error];
    match goal with
    | |- map id (update ?i ?f ?l) = _ /\ _ =>
        destruct (update_keeps i f l) as [E1 E2];
          [intros s; now split|rewrite E1, E2; now repeat split]
    end.
Qed.

Lemma fire_keeps (e : Event) (st st' : State) :
  fire e st = Some st' ->
  map id (workflowSteps st') = map id (workflowSteps st)
  /\ map description (workflowSteps st') = map description (workflowSteps st)
  /\ files st' = files st
  /\ error st' = error st.
Proof.
  destruct e as [|k client|k o]; cbn [fire].
  - destruct (effectDue st); [|discriminate]. intros [= <-].
    unfold effect. destruct (negb _); [now repeat split|].
    destruct (findIndex _ _); [|now repeat split].
    destruct (nth_error _ _) as [nextStep|]; [|now repeat split].
    cbn [workflowSteps files error].
    destruct (update_keeps (id nextStep) set_processing (workflowSteps st))
      as [E1 E2]; [intros s; now split|]. now rewrite E1, E2.
  - destruct (nth_error (awaiting st) k) as [c|]; [|discriminate].
    intros [= <-]. apply (resume_keeps c _ (without k st)).
  - destruct (nth_error (awaiting st) k) as [c|]; [|discriminate].
    intros [= <-]. apply (resume_keeps c _ (without k st)).
Qed.

(** X13.  A run keeps the plan and the files.  Whatever happens in a run
    (the effect running, calls settling either way), the identifiers and
    the descriptions of the steps, in order, the uploaded files and the
    error message are what they were: the loop writes only the status, the
    result and the thinking trace of steps. *)
Theorem run_keeps_plan_and_files :
  forall (es : list Event) (st st' : State),
    run es st = Some st' ->
    map id (workflowSteps st') = map id (workflowSteps st)
    /\ map description (workflowSteps st') = map description (workflowSteps st)
    /\ files st' = files st
    /\ error st' = error st.
Proof.
  induction es as [|e es IH]; intros st st'; cbn [run].
  - intros [= <-]. now repeat split.
  - destruct (fire e st) as [st1|] eqn:F; [|discriminate]. intros R.
    destruct (fire_keeps _ _ _ F) as (A1 & A2 & A3 & A4).
    destruct (IH _ _ R) as (B1 & B2 & B3 & B4).
    rewrite B1, B2, B3, B4. now repeat split.
Qed.

Lemma run_keeps_plan_and_files_witness :
  map description (workflowSteps Examples.started)
  = map description (workflowSteps Examples.planned).
Proof.
  exact (proj1 (proj2 (run_keeps_plan_and_files [Render; Render; Render]
                         Examples.planned Examples.started eq_refl))).
Defined.

Lemma answer_returns (client : Client) (c : Call) :
  exists out, answer client c = Return out.
Proof.
  unfold answer, executeWorkflowStep.
  destruct (stream_failure _); eexists; reflexivity.
Qed.

Lemma update_not_failed (sid : jsstring) (f : WorkflowStep -> WorkflowStep)
  (l : list WorkflowStep) :
  (forall s, status (f s) <> FAILED) ->
  (forall s, In s l -> status s <> FAILED) ->
  forall s, In s (update sid f l) -> status s <> FAILED.
Proof.
  intros Hf Hl s I. unfold update in I. apply in_map_iff in I as (x & <- & I).
  destruct (eqb (id x) sid); [apply Hf|now apply Hl].
Qed.

(** X14.  No step ever fails.  Along a run of the program as it is (the
    effect running, calls settling the way the executor settles them,
    whatever the model does), a step list without a Failed step stays
    without one: the status Failed is not reachable from a plan. *)
Theorem failed_is_unreachable :
  forall (es : list Event) (st st' : State),
    forallb from_executor es = true ->
    run es st = Some st' ->
    (forall s, In s (workflowSteps st) -> status s <> FAILED) ->
    forall s, In s (workflowSteps st') -> status s <> FAILED.
Proof.
  induction es as [|e es IH]; intros st st' A; cbn [run].
  - now intros [= <-].
  - cbn [forallb] in A. apply andb_true_iff in A as [Ae A].
    destruct (fire e st) as [st1|] eqn:F; [|discriminate]. intros R Hn.
    apply (IH st1 st' A R). clear IH R.
    destruct e as [|k client|k o]; [| |discriminate]; cbn [fire] in F.
    + destruct (effectDue st); [|discriminate]. injection F as <-.
      unfold effect. destruct (negb _); [exact Hn|].
      destruct (findIndex _ _); [|exact Hn].
      destruct (nth_error _ _); [|exact Hn]. cbn [workflowSteps].
      apply update_not_failed; [intros s; discriminate|exact Hn].
    + destruct (nth_error (awaiting st) k) as [c|]; [|discriminate].
      injection F as <-. destruct (answer_returns client c) as [out ->].
      cbn [resume workflowSteps].
      apply update_not_failed; [intros s; discriminate|exact Hn].
Qed.

Lemma failed_is_unreachable_witness :
  exists st',
    run [Render; Render; Respond 1 (Examples.unreachable (js "down"));
         Respond 0 (Examples.unreachable (js "down")); Render]
        Examples.planned = Some st'
    /\ forall s, In s (workflowSteps st') -> status s <> FAILED.
Proof.
  eexists. split; [reflexivity|].
  apply (failed_is_unreachable
           [Render; Render; Respond 1 (Examples.unreachable (js "down"));
            Respond 0 (Examples.unreachable (js "down")); Render]
           Examples.planned _ eq_refl eq_refl).
  intros x [<-|[<-|[]]]; discriminate.
Defined.

Lemma run_stays_reset (es : list Event) (st0 st' : State) :
  workflowSteps st0 = [] -> files st0 = [] -> error st0 = None ->
  agentState st0 = idle ->
  run es st0 = Some st' ->
  workflowSteps st' = [] /\ files st' = [] /\ error st' = None
  /\ agentState st' = idle.
Proof.
  revert st0; induction es as [|e es IH]; intros st0 W Fl Er Ag; cbn [run].
  - intros [= <-]. now repeat split.
  - destruct (fire e st0) as [st1|] eqn:F; [|discriminate].
    assert (S1 : workflowSteps st1 = [] /\ files st1 = [] /\ error st1 = None
                 /\ agentState st1 = idle).
    { destruct e as [|k client|k o]; cbn [fire] in F.
      - destruct (effectDue st0); [|discriminate]. injection F as <-.
        unfold effect. rewrite Ag. cbn. now repeat split.
      - destruct (nth_error (awaiting st0) k) as [c|]; [|discriminate].
        injection F as <-.
        destruct (answer client c); cbn; rewrite W, Fl, Er, Ag; now repeat split.
      - destruct (nth_error (awaiting st0) k) as [c|]; [|discriminate].
        injection F as <-.
        destruct o; cbn; rewrite W, Fl, Er, Ag; now repeat split. }
    destruct S1 as (W1 & F1 & E1 & A1). now apply IH.
Qed.

(** X15.  A reset stops the loop, not the plan request.  After
    [handleReset], the events of the loop (calls that were still awaited
    settling either way, the effect running) leave the step list and the
    file set empty, no error shown and the agent state idle.  The plan
    request that [handleCreateWorkflow] may still await is not cancelled:
    when its reply arrives after the reset, one Pending step per
    description is created and execution is switched on although no file is
    left, and the next run of the effect starts the first step with an
    empty file set; when it fails, the error message is shown. *)
Theorem reset_stops_the_loop_not_the_plan :
  forall (st : State) (es : list Event) (st' : State),
    run es (handleReset st) = Some st' ->
    (workflowSteps st' = [] /\ files st' = [] /\ error st' = None
     /\ agentState st' = idle)
    /\ (forall (ids : nat -> jsstring) (plan : list jsstring),
           let st2 := handleCreateWorkflow_end ids (Return plan) st' in
           map description (workflowSteps st2) = plan
           /\ Forall (fun s => status s = PENDING) (workflowSteps st2)
           /\ isExecuting (agentState st2) = true
           /\ files st2 = []
           /\ forall first rest,
               plan = first :: rest ->
               exists st3 c,
                 fire Render st2 = Some st3
                 /\ awaiting st3 = awaiting st' ++ [c]
                 /\ description (call_step c) = first
                 /\ call_files c = []
                 /\ option_map status (nth_error (workflowSteps st3) 0)
                    = Some PROCESSING)
    /\ (forall (ids : nat -> jsstring) (e : Thrown),
           let st2 := handleCreateWorkflow_end ids (Throw e) st' in
           error st2
           = Some (js "Failed to generate a workflow. Please check your API key or try again.")
           /\ workflowSteps st2 = []
           /\ isExecuting (agentState st2) = false).
Proof.
  intros st es st' R.
  destruct (run_stays_reset es (handleReset st) st' eq_refl eq_refl eq_refl
              eq_refl R) as (W & Fl & Er & Ag).
  split; [now repeat split|]. split.
  - intros ids plan st2.
    destruct (PlanGeneration.newSteps_descriptions ids 0 plan) as (D & _ & P).
    split; [exact D|]. split.
    { apply (Forall_impl _ (fun s Hs => proj1 Hs) P). }
    split; [reflexivity|]. split; [exact Fl|].
    intros first rest ->.
    eexists _, _. split; [reflexivity|].
    cbn. rewrite eqb_refl, Fl. now repeat split.
  - intros ids e st2. unfold st2. cbn. rewrite W, Ag. now repeat split.
Qed.

(** Two calls awaited when the reset comes; one answers and one is rejected
    afterwards, then the plan reply arrives. *)
Lemma reset_stops_the_loop_not_the_plan_witness :
  exists st',
    run [Respond 1 (Examples.model [] (Examples.completes (js "late")));
         Render; Settle 0 (Throw OtherValue)]
        (handleReset Examples.started) = Some st'
    /\ workflowSteps st' = []
    /\ map description
         (workflowSteps
            (handleCreateWorkflow_end Examples.ids
               (Return [js "Analyze the code"; js "Fix the bug"]) st'))
       = [js "Analyze the code"; js "Fix the bug"].
Proof.
  eexists. split; [reflexivity|].
  destruct (reset_stops_the_loop_not_the_plan Examples.started
              [Respond 1 (Examples.model [] (Examples.completes (js "late")));
               Render; Settle 0 (Throw OtherValue)] _ eq_refl)
    as ((W & _) & P & _).
  split; [exact W|].
  exact (proj1 (P Examples.ids [js "Analyze the code"; js "Fix the bug"])).
Defined.

(** X16.  Answered calls complete every step.  In a state where every step
    that is not Completed has an awaited call, answering the awaited calls
    one after the other, whatever the model does (complete or fail), leaves
    no call awaited and every step Completed, with the executing flag as it
    was. *)
Theorem answered_calls_complete_every_step :
  forall (client : Client) (st : State),
    all_in_flight st ->
    exists st',
      run (repeat (Respond 0 client) (length (awaiting st))) st = Some st'
      /\ awaiting st' = []
      /\ (forall s, In s (workflowSteps st') -> status s = COMPLETED)
      /\ isExecuting (agentState st') = isExecuting (agentState st).
Proof.
  intros client st.
  remember (length (awaiting st)) as n eqn:Hn. revert st Hn.
  induction n as [|n IH]; intros st Hn Inv.
  - exists st. symmetry in Hn. apply length_zero_iff_nil in Hn.
    cbn [repeat run]. repeat split; [exact Hn|].
    intros s I. destruct (Inv s I) as [C|(c & Ic & _)]; [exact C|].
    rewrite Hn in Ic. contradiction.
  - destruct (awaiting st) as [|c cs] eqn:Aw; [discriminate|].
    injection Hn as Hn.
    destruct (answer_returns client c) as [out A].
    set (st1 := resume c (Return out) (without 0 st)).
    assert (F : fire (Respond 0 client) st = Some st1).
    { cbn [fire]. rewrite Aw. cbn [nth_error]. now rewrite A. }
    assert (Aw1 : awaiting st1 = cs).
    { unfold st1. cbn [resume awaiting without]. rewrite Aw. reflexivity. }
    assert (Inv1 : all_in_flight st1).
    { intros s1 I1. unfold st1 in I1. cbn [resume workflowSteps without] in I1.
      unfold update in I1. apply in_map_iff in I1 as (s & <- & I).
      destruct (eqb (id s) (id (call_step c))) eqn:E; [now left|].
      destruct (Inv s I) as [C|(c' & Ic & Ec)]; [now left|].
      right. exists c'. rewrite Aw1. split; [|exact Ec].
      rewrite Aw in Ic. destruct Ic as [<-|Ic]; [|exact Ic].
      rewrite Ec, eqb_refl in E. discriminate. }
    destruct (IH st1 ltac:(now rewrite Aw1) Inv1) as (st' & R & A' & C' & X').
    exists st'. cbn [repeat run]. rewrite F.
    repeat split; assumption.
Qed.

Lemma answered_calls_complete_every_step_witness :
  exists st',
    run [Respond 0 (Examples.unreachable (js "down"));
         Respond 0 (Examples.unreachable (js "down"))] Examples.started
    = Some st'
    /\ map status (workflowSteps st') = [COMPLETED; COMPLETED].
Proof.
  destruct (answered_calls_complete_every_step
              (Examples.unreachable (js "down")) Examples.started)
    as (st' & R & _).
  - intros s [<-|[<-|[]]]; right.
    + eexists. split; [left; reflexivity|reflexivity].
    + eexists. split; [right; left; reflexivity|reflexivity].
  - exists st'. split; [exact R|]. injection R as <-. reflexivity.
Defined.

End Runs.

(** ** File intake ([processFiles], [removeFile], [readFileContent]) *)

Module Intake.

Import FileUtils FileUpload JsFacts TextFacts Spec.

Section WithHost.

Context {H : Host}.

Lemma category_never_text (name type : jsstring) :
  getFileCategory name type <> text.
Proof.
  unfold getFileCategory.
  repeat match goal with
         | |- context [if ?b then _ else _] => destruct b
         end; discriminate.
Qed.

Lemma newFiles_rejected (ids : nat -> jsstring) (n : nat)
  (fileList : list (File * Readings)) (file : File) (r : Readings) (e : Thrown) :
  In (file, r) fileList ->
  readFileContent (fname file) (ftype file) r = Throw e ->
  newFiles ids n fileList = None.
Proof.
  revert n; induction fileList as [|[f0 r0] l IH]; intros n; [contradiction|].
  intros [[= -> ->]|I] E; cbn [newFiles].
  - now rewrite E.
  - rewrite (IH (S n) I E).
    destruct (readFileContent (fname f0) (ftype f0) r0); reflexivity.
Qed.

Lemma newFiles_fulfilled (ids : nat -> jsstring) (n : nat)
  (fileList : list (File * Readings)) :
  (forall file r,
      In (file, r) fileList ->
      exists content, readFileContent (fname file) (ftype file) r = Return content) ->
  exists new,
    newFiles ids n fileList = Some new
    /\ map name new = map (fun fr => fname (fst fr)) fileList
    /\ map file_id new = map ids (seq n (length fileList))
    /\ map (fun f => Return (content f)) new
       = map (fun fr => readFileContent (fname (fst fr)) (ftype (fst fr)) (snd fr))
             fileList
    /\ map category new
       = map (fun fr => getFileCategory (fname (fst fr)) (ftype (fst fr)))
             fileList.
Proof.
  revert n; induction fileList as [|[f0 r0] l IH]; intros n Hall.
  - exists []. now repeat split.
  - destruct (Hall f0 r0 (or_introl eq_refl)) as [c0 E0].
    destruct (IH (S n) (fun f r I => Hall f r (or_intror I)))
      as (new & E & Hn & Hi & Hc & Hk).
    exists (uploaded (ids n) f0 c0 :: new). cbn [newFiles]. rewrite E0, E.
    cbn [map length seq fst snd uploaded name file_id content category].
    rewrite Hn, Hi, Hc, Hk, E0. now repeat split.
Qed.

End WithHost.

(** X17.  An upload is all or nothing.  When the reading of one file of a
    selection is rejected, the file set is left as it was, the other files
    of the selection included.  When every reading is fulfilled, the files
    of the selection are appended to the file set in the order of the
    selection, each with the name of the file, the content that was read
    and the category [getFileCategory] gives, which is never [text]. *)
Theorem upload_is_all_or_nothing :
  forall (H : Host) (ids : nat -> jsstring)
         (fileList : list (File * Readings)) (prev : list UploadedFile),
    ((exists file r e,
         In (file, r) fileList
         /\ readFileContent (fname file) (ftype file) r = Throw e) ->
     processFiles ids fileList prev = prev)
    /\ ((forall file r,
            In (file, r) fileList ->
            exists content,
              readFileContent (fname file) (ftype file) r = Return content) ->
        exists new,
          processFiles ids fileList prev = prev ++ new
          /\ map name new = map (fun fr => fname (fst fr)) fileList
          /\ map (fun f => Return (content f)) new
             = map (fun fr => readFileContent (fname (fst fr)) (ftype (fst fr))
                                              (snd fr))
                   fileList
          /\ map category new
             = map (fun fr => getFileCategory (fname (fst fr)) (ftype (fst fr)))
                   fileList
          /\ Forall (fun f => category f <> text) new).
Proof.
  intros H ids fileList prev. split.
  - intros (file & r & e & I & E). unfold processFiles.
    now rewrite (newFiles_rejected ids 0 fileList file r e I E).
  - intros Hall.
    destruct (newFiles_fulfilled ids 0 fileList Hall)
      as (new & E & Hn & _ & Hc & Hk).
    exists new. unfold processFiles. rewrite E.
    repeat split; try assumption.
    apply Forall_forall. intros f I.
    assert (Ic : In (category f) (map category new)) by now apply in_map.
    rewrite Hk in Ic. apply in_map_iff in Ic as (fr & <- & _).
    apply category_never_text.
Qed.

Lemma upload_is_all_or_nothing_witness :
  @processFiles ReferenceHost.host Examples.ids
     [Examples.notes_txt; Examples.scan_pdf] [Examples.main_py]
  = [Examples.main_py]
  /\ exists new,
      @processFiles ReferenceHost.host Examples.ids [Examples.notes_txt]
         [Examples.main_py]
      = [Examples.main_py] ++ new
      /\ map name new = [js "notes.txt"].
Proof.
  split.
  - apply (proj1 (upload_is_all_or_nothing ReferenceHost.host Examples.ids
                    [Examples.notes_txt; Examples.scan_pdf] [Examples.main_py])).
    exists (fst Examples.scan_pdf), (snd Examples.scan_pdf), pdf_error.
    split; [right; left; reflexivity|reflexivity].
  - destruct (proj2 (upload_is_all_or_nothing ReferenceHost.host Examples.ids
                       [Examples.notes_txt] [Examples.main_py]))
      as (new & E & Hn & _).
    + intros file r [[= <- <-]|[]]. now eexists.
    + now exists new.
Defined.

Lemma removeFile_absent (id : jsstring) (prev : list UploadedFile) :
  ~ In id (map file_id prev) -> removeFile id prev = prev.
Proof.
  induction prev as [|f prev IH]; simpl; [reflexivity|]. intros Hn.
  destruct (eqb (file_id f) id) eqn:E.
  - apply eqb_eq in E. tauto.
  - simpl. f_equal. apply IH. tauto.
Qed.

(** X18.  Removing a file.  Removing an identifier leaves no file with that
    identifier and keeps the file set when no file has it; so removing the
    file that was just uploaded, its identifier being a fresh one, gives
    the file set of before the upload. *)
Theorem removeFile_undoes_upload :
  forall (H : Host) (ids : nat -> jsstring) (file : File) (r : Readings)
         (content : FileContent) (prev : list UploadedFile),
    readFileContent (fname file) (ftype file) r = Return content ->
    ~ In (ids 0) (map file_id prev) ->
    removeFile (ids 0) (processFiles ids [(file, r)] prev) = prev
    /\ (forall id f, In f (removeFile id prev) -> file_id f <> id)
    /\ removeFile (ids 0) prev = prev.
Proof.
  intros H ids file r content prev E Hn. split; [|split].
  - unfold processFiles. cbn [newFiles]. rewrite E.
    unfold removeFile. rewrite filter_app. cbn [filter uploaded file_id].
    rewrite eqb_refl. cbn [negb]. rewrite app_nil_r.
    now apply removeFile_absent.
  - intros id f I. unfold removeFile in I. apply filter_In in I as [_ I].
    intros <-. now rewrite eqb_refl in I.
  - now apply removeFile_absent.
Qed.

Lemma removeFile_undoes_upload_witness :
  removeFile (Examples.ids 0)
    (@processFiles ReferenceHost.host Examples.ids [Examples.notes_txt]
       [Examples.main_py])
  = [Examples.main_py].
Proof.
  apply (proj1 (removeFile_undoes_upload ReferenceHost.host Examples.ids
                  (fst Examples.notes_txt) (snd Examples.notes_txt)
                  (Text (js "hello")) [Examples.main_py] eq_refl
                  ltac:(simpl; intuition discriminate))).
Defined.

(** The reader and the classifier look at the same extension. *)
Lemma lower_dot (c : char16) : N.eqb (ascii_lower c) DOT = N.eqb c DOT.
Proof.
  unfold ascii_lower, DOT.
  destruct ((65 <=? c) && (c <=? 90))%N eqn:E; [|reflexivity].
  apply andb_true_iff in E as [E1 E2].
  apply N.leb_le in E1. apply N.leb_le in E2.
  destruct (N.eqb_spec (c + 32) 46), (N.eqb_spec c 46); try reflexivity; lia.
Qed.

Lemma lower_has_dot (s : jsstring) :
  existsb (N.eqb DOT) (map ascii_lower s) = existsb (N.eqb DOT) s.
Proof.
  induction s as [|c s IH]; cbn [map existsb]; [reflexivity|].
  rewrite IH. f_equal. rewrite N.eqb_sym, lower_dot. apply N.eqb_sym.
Qed.

Lemma split_pop_lower (s : jsstring) :
  split_pop DOT (map ascii_lower s) = map ascii_lower (split_pop DOT s).
Proof.
  induction s as [|c s IH]; cbn [map split_pop]; [reflexivity|].
  rewrite lower_dot, lower_has_dot, IH.
  destruct (N.eqb c DOT); [reflexivity|].
  destruct (existsb (N.eqb DOT) s); reflexivity.
Qed.

Lemma split_pop_decompose (sep : char16) (s : jsstring) :
  In sep s -> exists a, s = a ++ sep :: split_pop sep s.
Proof.
  induction s as [|c s IH]; simpl; [contradiction|]. intros I.
  destruct (N.eqb_spec c sep) as [->|Hc].
  - destruct (in_dec N.eq_dec sep s) as [Is|Ns].
    + destruct (IH Is) as [a E]. exists (sep :: a). simpl. now f_equal.
    + exists []. simpl. now rewrite split_pop_free.
  - destruct I as [E|I]; [congruence|].
    assert (X : existsb (N.eqb sep) s = true) by now apply existsb_sep.
    rewrite X. destruct (IH I) as [a E]. exists (c :: a). simpl. now f_equal.
Qed.

Lemma split_pop_free_of (sep : char16) (s : jsstring) :
  ~ In sep (split_pop sep s).
Proof.
  rewrite split_pop_last. pose proof (split_free sep s) as F.
  pose proof (split_not_nil sep s) as Hn.
  destruct (split sep s) as [|x l]; [contradiction|].
  rewrite Forall_forall in F. apply F.
  apply (@exists_last _ (x :: l)) in Hn as (l' & y & ->).
  rewrite last_last. apply in_or_app. right. now left.
Qed.

Lemma endsWith_extension (s x : jsstring) :
  In DOT s -> ~ In DOT x ->
  endsWith (DOT :: x) s = eqb (split_pop DOT s) x.
Proof.
  intros Is Hx. destruct (eqb (split_pop DOT s) x) eqn:E.
  - apply eqb_eq in E. apply endsWith_true.
    destruct (split_pop_decompose DOT s Is) as [a Ea]. exists a. now rewrite <- E.
  - destruct (endsWith (DOT :: x) s) eqn:W; [|reflexivity].
    apply endsWith_true in W as [a ->].
    rewrite split_pop_suffix, eqb_refl in E by assumption. discriminate.
Qed.

(** X19.  The reader agrees with the category.  For an ASCII file name that
    holds a dot: [readFileContent] takes the DOCX branch exactly when the
    extension [getFileCategory] looks at is [docx]; and for any other
    extension a file classified [pdf] is read by PDF.js, a file classified
    [image] is read as a data URL, and a file classified [document] or
    [unknown] is read as text. *)
Theorem reader_agrees_with_category :
  forall (H : Host) (L : HostLaws H) (name type : jsstring),
    forallb is_ascii name = true -> In DOT name ->
    (reader name type = Mammoth <-> extension name = js "docx")
    /\ (extension name <> js "docx" ->
        (getFileCategory name type = pdf -> reader name type = PdfJs)
        /\ (getFileCategory name type = image -> reader name type = AsDataURL)
        /\ (getFileCategory name type = document
            \/ getFileCategory name type = unknown ->
            reader name type = AsText)).
Proof.
  intros H L name type A D.
  assert (Dl : In DOT (map ascii_lower name)).
  { apply existsb_sep. rewrite lower_has_dot. now apply existsb_sep. }
  assert (Ax : forallb is_ascii (split_pop DOT name) = true).
  { apply forallb_forall. intros c I. rewrite forallb_forall in A. apply A.
    destruct (split_pop_decompose DOT name D) as [a E]. rewrite E.
    apply in_or_app. right. now right. }
  assert (Ex : extension name = split_pop DOT (map ascii_lower name)).
  { unfold extension. now rewrite (toLowerCase_ascii _ Ax), split_pop_lower. }
  assert (Rd : reader name type
               = if eqb (extension name) (js "docx") then Mammoth
                 else if eqb type (js "application/pdf")
                         || eqb (extension name) (js "pdf") then PdfJs
                 else if startsWith (js "image/") type then AsDataURL
                 else AsText).
  { unfold reader. rewrite (toLowerCase_ascii _ A), Ex.
    change (js ".docx") with (DOT :: js "docx").
    change (js ".pdf") with (DOT :: js "pdf").
    rewrite !endsWith_extension; try assumption;
      simpl; intuition discriminate. }
  rewrite Rd. unfold getFileCategory.
  destruct (eqb (extension name) (js "docx")) eqn:Ed.
  - apply eqb_eq in Ed. split; [tauto|]. intros Hn. contradiction.
  - split.
    + split; [|intros E; rewrite E in Ed; discriminate].
      destruct (eqb type (js "application/pdf") || eqb (extension name) (js "pdf"));
        [discriminate|].
      destruct (startsWith (js "image/") type); discriminate.
    + intros _.
      destruct (array_includes code_extensions (extension name));
        destruct (eqb type (js "application/pdf")
                  || eqb (extension name) (js "pdf"));
        destruct (startsWith (js "image/") type);
        destruct (array_includes document_extensions (extension name)
                  || includes (js "text") type || includes (js "document") type);
        (split; [|split]; [intros E|intros E|intros [E|E]];
         try reflexivity; discriminate E).
Qed.

Lemma reader_agrees_with_category_witness :
  @reader ReferenceHost.host (js "Scan.PDF") (js "") = PdfJs.
Proof.
  destruct (reader_agrees_with_category ReferenceHost.host
              reference_host_lawful (js "Scan.PDF") (js "") eq_refl
              ltac:(simpl; tauto)) as [_ R].
  apply R; [discriminate|reflexivity].
Defined.




End Intake.

(** ** The collapsed step list ([getStepsPreview]) *)

Module Listing.

Import WorkflowList Spec.

(** X21.  The collapsed list accounts for every step.  The steps shown are
    the first steps of the plan, in order; the steps left out are exactly
    as many as the line "and n more steps" says, and the line is absent
    exactly when nothing is left out. *)
Theorem collapsed_list_accounts_for_every_step :
  forall (isWorkflowExpanded : bool) (steps : list WorkflowStep),
    exists rest,
      steps = stepsToShow isWorkflowExpanded steps ++ rest
      /\ match more_steps isWorkflowExpanded steps with
         | Some n => length rest = n /\ 0 < n
         | None => rest = []
         end.
Proof.
  intros [|] steps; unfold stepsToShow, more_steps, getStepsPreview, slice0;
    cbn [negb andb].
  - exists []. now rewrite app_nil_r.
  - exists (skipn 3 steps). split; [now rewrite firstn_skipn|].
    destruct (3 <? length steps) eqn:E.
    + apply Nat.ltb_lt in E. rewrite length_skipn. lia.
    + apply Nat.ltb_ge in E. now apply skipn_all2.
Qed.

End Listing.

(** ** The order of the statuses *)

Module StatusOrder.

Import GeminiService App JsFacts TextFacts Spec.

Lemma unique_id_index (l : list WorkflowStep) (i j : nat) (s t : WorkflowStep) :
  NoDup (map id l) ->
  nth_error l i = Some s -> nth_error l j = Some t -> id s = id t -> i = j.
Proof.
  intros Hd Hi Hj E.
  apply (proj1 (NoDup_nth_error (map id l)) Hd).
  - rewrite length_map. apply nth_error_Some. congruence.
  - rewrite !nth_error_map, Hi, Hj. simpl. now rewrite E.
Qed.

Lemma fire_rank (e : Event) (st st' : State) :
  NoDup (map id (workflowSteps st)) ->
  fire e st = Some st' ->
  forall i s s',
    nth_error (workflowSteps st) i = Some s ->
    nth_error (workflowSteps st') i = Some s' ->
    rank (status s) <= rank (status s').
Proof.
  intros Hd F i s s' Hs Hs'.
  destruct e as [|k client|k o]; cbn [fire] in F.
  - destruct (effectDue st); [|discriminate]. injection F as <-.
    assert (Same : forall t, nth_error (workflowSteps st) i = Some t ->
                             rank (status s) <= rank (status t)).
    { intros t Ht. assert (s = t) by congruence. subst t. lia. }
    unfold effect in Hs'. destruct (negb _); [cbn in Hs'; now apply Same|].
    destruct (findIndex is_pending (workflowSteps st)) as [j|] eqn:Fi;
      [|cbn in Hs'; now apply Same].
    destruct (ExecutionLoop.findIndex_first _ _ _ Fi) as [(t & Ht & Pt) _].
    rewrite Ht in Hs'. cbn [workflowSteps] in Hs'.
    rewrite ExecutionLoop.nth_error_update, Hs in Hs'. cbn in Hs'.
    injection Hs' as <-.
    destruct (eqb (id s) (id t)) eqn:E; [|lia].
    apply eqb_eq in E. pose proof (unique_id_index _ _ _ _ _ Hd Hs Ht E) as ->.
    assert (s = t) by congruence. subst t.
    unfold is_pending in Pt. destruct (status s); simpl in *; try discriminate.
    lia.
  - destruct (nth_error (awaiting st) k) as [c|]; [|discriminate].
    injection F as <-. destruct (answer client c) as [out|err];
      cbn [resume workflowSteps without] in Hs';
      rewrite ExecutionLoop.nth_error_update, Hs in Hs'; cbn in Hs';
      injection Hs' as <-;
      destruct (eqb (id s) (id (call_step c))); cbn; try lia;
      destruct (status s); simpl; lia.
  - destruct (nth_error (awaiting st) k) as [c|]; [|discriminate].
    injection F as <-. destruct o as [out|err];
      cbn [resume workflowSteps without] in Hs';
      rewrite ExecutionLoop.nth_error_update, Hs in Hs'; cbn in Hs';
      injection Hs' as <-;
      destruct (eqb (id s) (id (call_step c))); cbn; try lia;
      destruct (status s); simpl; lia.
Qed.

(** X22.  With distinct identifiers a status never goes back.  Along a run
    whose steps have distinct identifiers, the status of every step only
    moves forward in the order Pending, Processing, terminal (Completed or
    Failed); the step list keeps its length. *)
Theorem status_never_goes_back :
  forall (es : list Event) (st st' : State),
    NoDup (map id (workflowSteps st)) ->
    run es st = Some st' ->
    length (workflowSteps st') = length (workflowSteps st)
    /\ forall i s s',
        nth_error (workflowSteps st) i = Some s ->
        nth_error (workflowSteps st') i = Some s' ->
        rank (status s) <= rank (status s').
Proof.
  induction es as [|e es IH]; intros st st' Hd; cbn [run].
  - intros [= <-]. split; [reflexivity|]. intros i s s' Hs Hs'.
    assert (s = s') by congruence. subst. lia.
  - destruct (fire e st) as [st1|] eqn:F; [|discriminate]. intros R.
    destruct (Runs.fire_keeps _ _ _ F) as (Ki & _).
    assert (Hd1 : NoDup (map id (workflowSteps st1))) by now rewrite Ki.
    assert (Ln : length (workflowSteps st1) = length (workflowSteps st))
      by (rewrite <- (length_map id), Ki; apply length_map).
    destruct (IH st1 st' Hd1 R) as [L1 Rk]. split; [congruence|].
    intros i s s' Hs Hs'.
    destruct (nth_error (workflowSteps st1) i) as [s1|] eqn:H1.
    + pose proof (fire_rank e st st1 Hd F i s s1 Hs H1).
      pose proof (Rk i s1 s' H1 Hs'). lia.
    + apply nth_error_None in H1.
      assert (i < length (workflowSteps st)) by (apply nth_error_Some; congruence).
      lia.
Qed.

Lemma status_never_goes_back_witness :
  exists st',
    run [Render; Respond 0 (Examples.unreachable (js "down")); Render;
         Settle 0 (Throw OtherValue)] Examples.planned = Some st'
    /\ forall i s s',
        nth_error (workflowSteps Examples.planned) i = Some s ->
        nth_error (workflowSteps st') i = Some s' ->
        rank (status s) <= rank (status s').
Proof.
  eexists. split; [reflexivity|].
  apply (status_never_goes_back
           [Render; Respond 0 (Examples.unreachable (js "down")); Render;
            Settle 0 (Throw OtherValue)] Examples.planned _).
  - repeat constructor; simpl; intuition discriminate.
  - reflexivity.
Defined.

End StatusOrder.

(** ** Failures of the plan request *)

Module PlanFailures.

Import GeminiService App JsFacts TextFacts Spec.



End PlanFailures.
